(** * Dipole length calculator

    A shallow embedding of [dipole-antennas.py] and the properties of its
    numeric core: [wavelength_m], [current_distribution], [lengths], and the
    widget callbacks [update] and [reset].

    Python's [float] and numpy's [float64] are IEEE 754 binary64; they are
    modelled by Rocq's primitive floats, whose operations are the same
    correctly rounded ones (module [F64]).  The one operation without a
    bit-exact specification is the library sine; its value on finite arguments
    is a parameter of the model.  Statements about the values of the sine
    itself (peaks and nulls of the standing wave) are made on the same program
    read over the real numbers (module [Ideal]). *)

From Stdlib Require Import ZArith List Bool String Floats Reals Lra Lia.
Import ListNotations.

Set Warnings "-inexact-float".

(** ** Exceptions

    The program's functions can end by raising; [result] records which
    exception escaped. *)

Inductive exn : Set :=
| ZeroDivisionError   (* Python: float division by zero *)
| ValueError          (* numpy: value array does not fit the mask *)
| IndexError.         (* numpy: boolean index of the wrong length *)

Inductive result (A : Type) : Type :=
| Ok (a : A)
| Raise (e : exn).

Arguments Ok {A} a.
Arguments Raise {A} e.

Definition bind {A B : Type} (c : result A) (k : A -> result B) : result B :=
  match c with
  | Ok a => k a
  | Raise e => Raise e
  end.

Notation "x <- c ;; k" := (bind c (fun x => k))
  (at level 61, c at next level, right associativity).

(** ** The numpy array operations the program uses

    One-dimensional arrays are lists.  [getmask x mask] is [x[mask]] and
    [setmask I mask vals] is the array after [I[mask] = vals], for a boolean
    [mask].  numpy refuses a mask whose length differs from the array's; in
    an assignment it broadcasts a value array of length one to every selected
    position, and otherwise wants one value per selected position. *)

Module Np.
Section Arrays.
Context {A : Type}.

Definition zeros_like (zero : A) (x : list A) : list A :=
  map (fun _ => zero) x.

Fixpoint getmask (x : list A) (mask : list bool) : result (list A) :=
  match x, mask with
  | [], [] => Ok []
  | xi :: x', b :: mask' =>
      rest <- getmask x' mask' ;;
      Ok (if b then xi :: rest else rest)
  | _, _ => Raise IndexError
  end.

(** One value for every selected position. *)
Fixpoint fillmask (I : list A) (mask : list bool) (v : A)
  : result (list A) :=
  match I, mask with
  | [], [] => Ok []
  | i :: I', b :: mask' =>
      rest <- fillmask I' mask' v ;;
      Ok ((if b then v else i) :: rest)
  | _, _ => Raise IndexError
  end.

(** The values in order, one per selected position. *)
Fixpoint putmask (I : list A) (mask : list bool) (vals : list A)
  : result (list A) :=
  match I, mask with
  | [], [] =>
      match vals with
      | [] => Ok []
      | _ :: _ => Raise ValueError
      end
  | i :: I', true :: mask' =>
      match vals with
      | v :: vals' => rest <- putmask I' mask' vals' ;; Ok (v :: rest)
      | [] => Raise ValueError
      end
  | i :: I', false :: mask' =>
      rest <- putmask I' mask' vals ;; Ok (i :: rest)
  | _, _ => Raise IndexError
  end.

Definition setmask (I : list A) (mask : list bool) (vals : list A)
  : result (list A) :=
  match vals with
  | [v] => fillmask I mask v
  | _ => putmask I mask vals
  end.
End Arrays.
End Np.

(** ** Magnitude of a binary64 number

    A finite non-zero binary64 number is [m * 2^e] for a positive mantissa
    [m]; its magnitude is the position of its leading bit, the [k] with
    [2^(k-1) <= m * 2^e < 2^k]. *)

Definition mag (m : positive) (e : Z) : Z := (Zdigits2 (Zpos m) + e)%Z.

(** ** The program over binary64 *)

Module F64.
Local Open Scope float_scope.

(** [C = 299_792_458], an [int] that Python converts exactly when it meets a
    float. *)
Definition C : float := 299792458.

(** Python's [a / b] on floats: IEEE division, except that a zero divisor
    (of either sign) raises. *)
Definition truediv (a b : float) : result float :=
  if b =? 0 then Raise ZeroDivisionError else Ok (a / b).

Definition wavelength_m (freq_mhz : float) : result float :=
  truediv C (freq_mhz * 1e6).

(** [np.pi] *)
Definition np_pi : float := 3.141592653589793.

Section Sine.
(** The platform sine on finite arguments. *)
Variable libm_sin : float -> float.

(** [np.sin]: an infinite or NaN argument gives NaN (IEEE 754 invalid
    operation, reported by numpy as a warning). *)
Definition np_sin (y : float) : float :=
  if is_finite y then libm_sin y else nan.

(** The divisor in [L_elec_lambda / 2.0] is a non-zero literal, so the
    division cannot raise. *)
Definition current_distribution (x : list float) (L_elec_lambda : float)
  : result (list float) :=
  let half := L_elec_lambda / 2 in
  let inside := map (fun xi => abs xi <=? half) x in
  let I := Np.zeros_like 0 x in
  x_inside <- Np.getmask x inside ;;
  Np.setmask I inside
    (map (fun xi => np_sin (2 * np_pi * (half - abs xi))) x_inside).

(** What the masked assignment amounts to at one position. *)
Definition current_at (half xi : float) : float :=
  if abs xi <=? half then np_sin (2 * np_pi * (half - abs xi)) else 0.
End Sine.

Definition lengths (freq_mhz vf mult : float)
  : result (float * float * float) :=
  lam <- wavelength_m freq_mhz ;;
  let L_total := mult * lam * vf in
  Ok (lam, L_total, L_total / 2).

(** Membership in the closed interval [[-1, 1]]. *)
Definition in_unit (y : float) : bool := (-1 <=? y) && (y <=? 1).

(** Defaults *)
Definition freq0 : float := 100.0.
Definition vf0 : float := 0.95.
Definition mult0 : float := 0.5.

End F64.

(** ** The widgets and callbacks

    The figure, the axes and the drawing calls have no effect on the computed
    values and are left out.  What the callbacks read is the text of the
    frequency box and the values of the two sliders; what they write is the
    plotted curve ([line.set_ydata]) and the numbers shown in the status box
    (frequency, wavelength, total length, multiplier, velocity factor, arm
    length; the [:.3f] formatting of the text is left out).

    Parameters: the Python built-ins [float], [str] and [str.strip], the
    sample axis [x = np.linspace(-1.5, 1.5, 2000)], and the coercion a slider
    applies to a value it is given (clipping to its range and rounding to its
    [valstep] grid). *)

Module Gui.
Import F64.
Local Open Scope float_scope.

Record Slider : Set := {
  valmin : float;
  valmax : float;
  valstep : float;
  valinit : float;
  val : float
}.

Record Status : Set := {
  shown_freq : float;
  shown_lam : float;
  shown_total : float;
  shown_mult : float;
  shown_vf : float;
  shown_arm : float
}.

Record State : Set := {
  tb_freq : string;
  s_vf : Slider;
  s_mult : Slider;
  ydata : list float;
  status : option Status
}.

Definition set_val (v : float) (s : Slider) : Slider :=
  {| valmin := valmin s; valmax := valmax s; valstep := valstep s;
     valinit := valinit s; val := v |}.

Definition with_text (t : string) (u : State) : State :=
  {| tb_freq := t; s_vf := s_vf u; s_mult := s_mult u;
     ydata := ydata u; status := status u |}.

Definition with_vf (s : Slider) (u : State) : State :=
  {| tb_freq := tb_freq u; s_vf := s; s_mult := s_mult u;
     ydata := ydata u; status := status u |}.

Definition with_mult (s : Slider) (u : State) : State :=
  {| tb_freq := tb_freq u; s_vf := s_vf u; s_mult := s;
     ydata := ydata u; status := status u |}.

Inductive event : Set :=
| Submit (text : string)     (* the user edits the box and presses Enter *)
| Move_vf (pos : float)      (* the user drags the VF slider to [pos] *)
| Move_mult (pos : float)    (* the user drags the length slider to [pos] *)
| Click_reset.

Section Program.
Variable libm_sin : float -> float.
(** [float(s)]; [None] is its [ValueError]. *)
Variable py_float : string -> option float.
Variable py_str : float -> string.
Variable py_strip : string -> string.
Variable x : list float.
(** [coerce valmin valmax valstep v] *)
Variable coerce : float -> float -> float -> float -> float.

Definition new_slider (vmin vmax vinit vstep : float) : Slider :=
  let v := coerce vmin vmax vstep vinit in
  {| valmin := vmin; valmax := vmax; valstep := vstep;
     valinit := v; val := v |}.

(** The [try] block of [update]: the parsed text when it parses to a value
    that is not [<= 0], and [freq0] when [float] raises or the guard does. *)
Definition read_freq (u : State) : float :=
  match py_float (py_strip (tb_freq u)) with
  | Some freq_mhz => if freq_mhz <=? 0 then freq0 else freq_mhz
  | None => freq0
  end.

(** Only the [ValueError] of the [try] block is caught: an exception of
    [current_distribution] or [lengths] would escape. *)
Definition update (u : State) : result State :=
  let freq_mhz := read_freq u in
  let vf := val (s_vf u) in
  let mult := val (s_mult u) in
  I <- current_distribution libm_sin x mult ;;
  r <- lengths freq_mhz vf mult ;;
  let '(lam, L_total, L_arm) := r in
  Ok {| tb_freq := tb_freq u; s_vf := s_vf u; s_mult := s_mult u;
        ydata := I;
        status := Some {| shown_freq := freq_mhz; shown_lam := lam;
                          shown_total := L_total; shown_mult := mult;
                          shown_vf := vf; shown_arm := L_arm |} |}.

Definition submit_freq (u : State) : result State := update u.

(** [TextBox.set_val]: nothing happens when the text is unchanged;
    otherwise the text is replaced and the submit callback runs. *)
Definition tb_set_val (t : string) (u : State) : result State :=
  if String.eqb (tb_freq u) t then Ok u else submit_freq (with_text t u).

(** [Slider.set_val] stores the value and runs the change callback;
    [Slider.reset] calls it with [valinit] when the value differs. *)
Definition s_vf_set_val (v : float) (u : State) : result State :=
  update (with_vf (set_val v (s_vf u)) u).

Definition s_mult_set_val (v : float) (u : State) : result State :=
  update (with_mult (set_val v (s_mult u)) u).

Definition s_vf_reset (u : State) : result State :=
  if val (s_vf u) =? valinit (s_vf u) then Ok u
  else s_vf_set_val (valinit (s_vf u)) u.

Definition s_mult_reset (u : State) : result State :=
  if val (s_mult u) =? valinit (s_mult u) then Ok u
  else s_mult_set_val (valinit (s_mult u)) u.

Definition reset (u : State) : result State :=
  u1 <- tb_set_val (py_str freq0) u ;;
  u2 <- s_vf_reset u1 ;;
  u3 <- s_mult_reset u2 ;;
  update u3.

(** A drag moves the slider to the coerced position when that differs
    from the current value. *)
Definition drag_vf (pos : float) (u : State) : result State :=
  let s := s_vf u in
  let v := coerce (valmin s) (valmax s) (valstep s) pos in
  if v =? val s then Ok u else s_vf_set_val v u.

Definition drag_mult (pos : float) (u : State) : result State :=
  let s := s_mult u in
  let v := coerce (valmin s) (valmax s) (valstep s) pos in
  if v =? val s then Ok u else s_mult_set_val v u.

Definition handle (e : event) (u : State) : result State :=
  match e with
  | Submit t => submit_freq (with_text t u)
  | Move_vf pos => drag_vf pos u
  | Move_mult pos => drag_mult pos u
  | Click_reset => reset u
  end.

Fixpoint run (es : list event) (u : State) : result State :=
  match es with
  | [] => Ok u
  | e :: es' => u' <- handle e u ;; run es' u'
  end.

(** The script up to [plt.show()]: the first curve [I0], the widgets, and
    the initial [update()]. *)
Definition start : result State :=
  I0 <- current_distribution libm_sin x mult0 ;;
  update {| tb_freq := py_str freq0;
            s_vf := new_slider 0.80 1.00 vf0 0.005;
            s_mult := new_slider 0.25 2.0 mult0 0.01;
            ydata := I0;
            status := None |}.
End Program.
End Gui.

(** ** A small environment

    One concrete choice of the parameters, used to run the callbacks on
    examples: a [float] that reads four texts, a [str] that writes the
    default, sliders that keep the value they are given, three sample
    positions, and the identity in place of the sine. *)

Module Demo.
Local Open Scope float_scope.
Local Open Scope string_scope.

Definition py_float (s : string) : option float :=
  if String.eqb s "100.0" then Some 100.0
  else if String.eqb s "27" then Some 27
  else if String.eqb s "0" then Some 0
  else if String.eqb s "-5" then Some (-5)
  else None.

Definition py_str (_ : float) : string := "100.0".

Definition py_strip (s : string) : string := s.

Definition x : list float := [-1.5; 0; 1.5].

Definition coerce (vmin vmax vstep v : float) : float := v.

Definition libm_sin (y : float) : float := y.

Definition handle : Gui.event -> Gui.State -> result Gui.State :=
  Gui.handle libm_sin py_float py_str py_strip x coerce.

Definition session (es : list Gui.event) : result Gui.State :=
  u0 <- Gui.start libm_sin py_float py_str py_strip x coerce ;;
  Gui.run libm_sin py_float py_str py_strip x coerce es u0.

Definition reset : Gui.State -> result Gui.State :=
  Gui.reset libm_sin py_float py_str py_strip x.

(** A state in which the last submitted frequency, 27 MHz, is on display. *)
Definition showing_27 : Gui.State :=
  {| Gui.tb_freq := "27";
     Gui.s_vf := Gui.new_slider coerce 0.80 1.00 0.95 0.005;
     Gui.s_mult := Gui.new_slider coerce 0.25 2.0 0.5 0.01;
     Gui.ydata := [0; 1; 0];
     Gui.status :=
       Some {| Gui.shown_freq := 27;
               Gui.shown_lam := 11.103424370370371;
               Gui.shown_total := 5.2741265759259264;
               Gui.shown_mult := 0.5;
               Gui.shown_vf := 0.95;
               Gui.shown_arm := 2.6370632879629632 |} |}.

End Demo.

(** The same environment with a [float] that also reads the three texts
    Python's [float] accepts for values that are not finite. *)

Module Probe.
Local Open Scope float_scope.
Local Open Scope string_scope.

Definition py_float (s : string) : option float :=
  if String.eqb s "nan" then Some nan
  else if String.eqb s "inf" then Some infinity
  else if String.eqb s "-inf" then Some neg_infinity
  else Demo.py_float s.

Definition handle : Gui.event -> Gui.State -> result Gui.State :=
  Gui.handle Demo.libm_sin py_float Demo.py_str Demo.py_strip Demo.x
    Demo.coerce.

(** A slider that clips to its range, and a stand-in for the sine that
    stays in [[-1, 1]]. *)
Definition coerce (vmin vmax vstep v : float) : float :=
  if (v <? vmin)%float then vmin else if (vmax <? v)%float then vmax else v.

Definition libm_sin (y : float) : float := if F64.in_unit y then y else 0.

Definition session (es : list Gui.event) : result Gui.State :=
  u0 <- Gui.start libm_sin py_float Demo.py_str Demo.py_strip Demo.x coerce ;;
  Gui.run libm_sin py_float Demo.py_str Demo.py_strip Demo.x coerce es u0.

(** A stand-in for the sine that stays in [[-1, 1]] and is 1 outside it, in
    particular at [2 * np.pi * 0.25]. *)
Definition peak_sin (y : float) : float := if F64.in_unit y then y else 1.

End Probe.

(** ** The slider of matplotlib

    What [matplotlib.widgets.Slider] makes of a value, at its construction
    ([valinit]) and on a drag: [_value_in_bounds] snaps the value to the
    [valstep] grid with [_stepped_value],
    [valmin + round((val - valmin) / valstep) * valstep], and clips it to
    [[valmin, valmax]].  [round] and the conversion of its [int] to a float
    are Python's. *)

Module Mpl.
Local Open Scope float_scope.

(** The integer nearest to [m * 2^e], ties to the even one. *)
Definition round_half_even (m : positive) (e : Z) : Z :=
  match e with
  | Zneg k =>
      let d := Z.pow_pos 2 k in
      let q := (Zpos m / d)%Z in
      match (2 * (Zpos m mod d) ?= d)%Z with
      | Lt => q
      | Gt => (q + 1)%Z
      | Eq => if Z.even q then q else (q + 1)%Z
      end
  | _ => (Zpos m * 2 ^ e)%Z
  end.

(** [round(v)] on a float; [None] where Python raises (NaN, infinities). *)
Definition py_round (v : float) : option Z :=
  match Prim2SF v with
  | S754_zero _ => Some 0%Z
  | S754_finite s m e => Some (cond_Zopp s (round_half_even m e))
  | _ => None
  end.

(** The float an [int] becomes when it meets a float. *)
Definition float_of_int (n : Z) : float :=
  SF2Prim (binary_normalize prec emax n 0 false).

(** [_stepped_value].  Where [round] raises, inside matplotlib and before
    any callback of the script runs, the value is left as it is. *)
Definition stepped_value (vmin vstep v : float) : float :=
  match py_round ((v - vmin) / vstep) with
  | Some n => vmin + float_of_int n * vstep
  | None => v
  end.

(** [_value_in_bounds], for a slider with closed ends and no neighbours. *)
Definition coerce (vmin vmax vstep v : float) : float :=
  let v' := stepped_value vmin vstep v in
  if v' <=? vmin then vmin else if vmax <=? v' then vmax else v'.

Definition session (es : list Gui.event) : result Gui.State :=
  u0 <- Gui.start Demo.libm_sin Demo.py_float Demo.py_str Demo.py_strip
          Demo.x coerce ;;
  Gui.run Demo.libm_sin Demo.py_float Demo.py_str Demo.py_strip Demo.x
    coerce es u0.

End Mpl.

(** ** The program over the real numbers

    The same three functions with every float operation read as the exact
    operation on reals: no rounding, no overflow, no NaN. *)

Module Ideal.
Local Open Scope R_scope.

Definition C : R := 299792458.

Definition truediv (a b : R) : result R :=
  if Req_dec_T b 0 then Raise ZeroDivisionError else Ok (a / b).

Definition wavelength_m (freq_mhz : R) : result R :=
  truediv C (freq_mhz * 1e6).

Definition leb (a b : R) : bool := if Rle_dec a b then true else false.

Definition current_distribution (x : list R) (L_elec_lambda : R)
  : result (list R) :=
  let half := L_elec_lambda / 2 in
  let inside := map (fun xi => leb (Rabs xi) half) x in
  let I := Np.zeros_like 0 x in
  x_inside <- Np.getmask x inside ;;
  Np.setmask I inside
    (map (fun xi => sin (2 * PI * (half - Rabs xi))) x_inside).

Definition current_at (half xi : R) : R :=
  if leb (Rabs xi) half then sin (2 * PI * (half - Rabs xi)) else 0.

Definition lengths (freq_mhz vf mult : R) : result (R * R * R) :=
  lam <- wavelength_m freq_mhz ;;
  let L_total := mult * lam * vf in
  Ok (lam, L_total, L_total / 2).

Definition in_unit (y : R) : Prop := -1 <= y <= 1.

End Ideal.


(** * Properties *)

(** ** Masked selection and assignment *)

Section MaskFacts.
Context {A : Type}.
Variable inside : A -> bool.
Variable f : A -> A.
Variable zero : A.

Lemma getmask_map (x : list A) :
  Np.getmask x (map inside x) = Ok (filter inside x).
Proof.
  induction x as [|xi x IH]; simpl; [reflexivity|].
  rewrite IH; simpl. destruct (inside xi); reflexivity.
Qed.

Lemma putmask_map (x : list A) :
  Np.putmask (Np.zeros_like zero x) (map inside x) (map f (filter inside x))
  = Ok (map (fun xi => if inside xi then f xi else zero) x).
Proof.
  unfold Np.zeros_like.
  induction x as [|xi x IH]; simpl; [reflexivity|].
  destruct (inside xi); simpl; rewrite IH; reflexivity.
Qed.

Lemma fillmask_map (x : list A) (v : A) :
  (forall xi, In xi x -> inside xi = true -> f xi = v) ->
  Np.fillmask (Np.zeros_like zero x) (map inside x) v
  = Ok (map (fun xi => if inside xi then f xi else zero) x).
Proof.
  unfold Np.zeros_like.
  induction x as [|xi x IH]; simpl; intros Hv; [reflexivity|].
  rewrite IH by (intros xj Hj; apply Hv; right; exact Hj). simpl.
  destruct (inside xi) eqn:E; [|reflexivity].
  rewrite (Hv xi (or_introl eq_refl) E). reflexivity.
Qed.

Lemma setmask_map (x : list A) :
  Np.setmask (Np.zeros_like zero x) (map inside x) (map f (filter inside x))
  = Ok (map (fun xi => if inside xi then f xi else zero) x).
Proof.
  unfold Np.setmask.
  destruct (map f (filter inside x)) as [|v [|w vals]] eqn:E;
    try (rewrite <- E; apply putmask_map).
  apply fillmask_map. intros xi Hin Hxi.
  assert (H : In (f xi) (map f (filter inside x))).
  { apply in_map, filter_In. split; assumption. }
  rewrite E in H. destruct H as [H|[]]. symmetry. exact H.
Qed.
End MaskFacts.

(** ** Rounding in binary64

    The arithmetic of primitive floats is specified by [SpecFloat]: a result
    is the exact one rounded to nearest even by [binary_round_aux].  The
    lemmas below follow a positive mantissa through the two shifts of that
    function and bound the magnitude of a product and of a quotient. *)

Section Rounding.
Local Open Scope Z_scope.

Ltac pow2_pos := try apply Z.pow_pos_nonneg; lia.

(** The number of binary digits is the logarithm plus one. *)
Lemma Zdigits2_log2 (m : Z) : 0 < m -> Zdigits2 m = Z.log2 m + 1.
Proof.
  destruct m as [|p|p]; try lia. intros _. simpl Zdigits2.
  induction p as [p IH|p IH|]; simpl digits2_pos.
  - rewrite Pos2Z.inj_succ, IH, Pos2Z.inj_xI, Z.log2_succ_double by lia.
    lia.
  - rewrite Pos2Z.inj_succ, IH, Pos2Z.inj_xO, Z.log2_double by lia. lia.
  - reflexivity.
Qed.

Lemma fexp64 (x : Z) : fexp prec emax x = Z.max (x - 53) (-1074).
Proof. reflexivity. Qed.

(** A right shift halves the mantissa. *)
Lemma shr_1_m (r : shr_record) :
  0 <= shr_m r -> shr_m (shr_1 r) = Z.div2 (shr_m r).
Proof.
  destruct r as [m rr ss]; simpl.
  destruct m as [|[p|p|]|p]; simpl; try reflexivity; lia.
Qed.

Lemma shr_iter_m (p : positive) : forall r : shr_record,
  0 <= shr_m r ->
  shr_m (SpecFloat.iter_pos shr_1 p r) = shr_m r / 2 ^ Zpos p.
Proof.
  assert (H1 : forall r, 0 <= shr_m r ->
                         shr_m (shr_1 r) = shr_m r / 2 ^ 1).
  { intros r Hr. rewrite shr_1_m, Z.div2_div by assumption. reflexivity. }
  assert (Hdiv : forall a k, 0 <= a -> 0 <= k -> 0 <= a / 2 ^ k).
  { intros a k Ha Hk. apply Z.div_pos; [exact Ha|pow2_pos]. }
  induction p as [p IH|p IH|]; intros r Hr; simpl SpecFloat.iter_pos.
  - assert (H0 : 0 <= shr_m (shr_1 r)).
    { rewrite H1 by assumption. apply Hdiv; lia. }
    assert (H2 : 0 <= shr_m (SpecFloat.iter_pos shr_1 p (shr_1 r))).
    { rewrite IH by assumption. apply Hdiv; lia. }
    rewrite IH, IH, H1 by assumption.
    rewrite !Z.div_div by pow2_pos.
    rewrite <- !Z.pow_add_r by lia. do 2 f_equal. lia.
  - assert (H2 : 0 <= shr_m (SpecFloat.iter_pos shr_1 p r)).
    { rewrite IH by assumption. apply Hdiv; lia. }
    rewrite IH, IH by assumption.
    rewrite !Z.div_div by pow2_pos.
    rewrite <- !Z.pow_add_r by lia. do 2 f_equal. lia.
  - apply H1, Hr.
Qed.

Lemma shr_record_of_loc_m (m : Z) (l : location) :
  shr_m (shr_record_of_loc m l) = m.
Proof. destruct l as [|[| |]]; reflexivity. Qed.

(** [shr_fexp] shifts by the distance to the canonical exponent. *)
Lemma shr_fexp_m (m e : Z) (l : location) :
  0 < m ->
  let n := Z.max 0 (fexp prec emax (Zdigits2 m + e) - e) in
  shr_m (fst (shr_fexp prec emax m e l)) = m / 2 ^ n /\
  snd (shr_fexp prec emax m e l) = e + n.
Proof.
  intros Hm n. unfold shr_fexp, shr. subst n.
  destruct (fexp prec emax (Zdigits2 m + e) - e) as [|p|p] eqn:E;
    simpl fst; simpl snd; rewrite ?shr_iter_m, shr_record_of_loc_m;
    rewrite ?shr_record_of_loc_m; try lia.
  - simpl. rewrite Z.div_1_r. lia.
  - rewrite Z.max_r by lia. split; reflexivity.
  - rewrite Z.max_l by lia. simpl. rewrite Z.div_1_r. lia.
Qed.

Lemma round_nearest_even_bounds (m : Z) (l : location) :
  m <= round_nearest_even m l <= m + 1.
Proof.
  destruct l as [|[| |]]; simpl; try lia. destruct (Z.even m); lia.
Qed.

Lemma log2_div_pow2 (m n : Z) :
  0 < m -> 0 <= n <= Z.log2 m ->
  0 < m / 2 ^ n /\ Z.log2 (m / 2 ^ n) = Z.log2 m - n.
Proof.
  intros Hm Hn. rewrite <- Z.shiftr_div_pow2 by lia.
  assert (E : Z.log2 (Z.shiftr m n) = Z.log2 m - n).
  { rewrite Z.log2_shiftr by lia. lia. }
  split; [|exact E].
  destruct (Z.lt_trichotomy 0 (Z.shiftr m n)) as [H|[H|H]];
    [assumption| |].
  - rewrite Z.shiftr_div_pow2 in H by lia.
    symmetry in H. apply Z.div_small_iff in H; [|apply Z.pow_nonzero; lia].
    destruct H as [H|H]; [|pose proof (Z.pow_pos_nonneg 2 n); lia].
    pose proof (Z.log2_spec m Hm) as [Hlo _].
    pose proof (Z.pow_le_mono_r 2 n (Z.log2 m)). lia.
  - pose proof (Z.shiftr_nonneg m n). lia.
Qed.

Lemma log2_round (m0 m1 : Z) :
  0 < m0 -> m0 <= m1 <= m0 + 1 ->
  Z.log2 m0 <= Z.log2 m1 <= Z.log2 m0 + 1.
Proof.
  intros H0 H1. split.
  - apply Z.log2_le_mono; lia.
  - transitivity (Z.log2 (Z.succ m0)).
    + apply Z.log2_le_mono; lia.
    + pose proof (Z.log2_succ_le m0). lia.
Qed.

(** Rounding a positive value [m * 2^e] that is above the underflow
    threshold and carries at least the canonical number of bits: the result
    is a canonical positive number of the same magnitude or one more, or
    the infinity when its exponent exceeds the largest one. *)
Lemma binary_round_aux_spec (s : bool) (m e : Z) (l : location) :
  0 < m ->
  -1074 < Zdigits2 m + e ->
  e <= fexp prec emax (Zdigits2 m + e) ->
  exists (m' : positive) (e' : Z),
    Zdigits2 m + e <= Zdigits2 (Zpos m') + e' <= Zdigits2 m + e + 1 /\
    e' = fexp prec emax (Zdigits2 (Zpos m') + e') /\
    binary_round_aux prec emax s m e l
    = if e' <=? emax - prec then S754_finite s m' e' else S754_infinity s.
Proof.
  intros Hm Hmag He. unfold binary_round_aux.
  destruct (shr_fexp_m m e l Hm) as [Hm0 He1].
  destruct (shr_fexp prec emax m e l) as [mrs' e1].
  simpl fst in Hm0; simpl snd in He1.
  pose proof (round_nearest_even_bounds
                (shr_m mrs') (loc_of_shr_record mrs')) as Hr.
  set (m1 := round_nearest_even (shr_m mrs') (loc_of_shr_record mrs')) in *.
  rewrite (Zdigits2_log2 m Hm), fexp64 in *.
  pose proof (Z.log2_nonneg m) as Hl.
  destruct (log2_div_pow2 m
              (Z.max 0 (Z.max (Z.log2 m + 1 + e - 53) (-1074) - e)) Hm)
    as [Hm0pos Hl0]; [lia|].
  rewrite <- Hm0 in Hm0pos, Hl0.
  pose proof (log2_round _ _ Hm0pos Hr) as Hl1.
  assert (Hm1 : 0 < m1) by lia.
  destruct (shr_fexp_m m1 e1 loc_Exact Hm1) as [Hm2 He2].
  destruct (shr_fexp prec emax m1 e1 loc_Exact) as [mrs'' e2].
  simpl fst in Hm2; simpl snd in He2.
  rewrite (Zdigits2_log2 m1 Hm1), fexp64 in *.
  destruct (log2_div_pow2 m1
              (Z.max 0 (Z.max (Z.log2 m1 + 1 + e1 - 53) (-1074) - e1)) Hm1)
    as [Hm2pos Hl2]; [lia|].
  rewrite <- Hm2 in Hm2pos, Hl2.
  destruct (shr_m mrs'') as [|m2|m2]; try lia.
  exists m2, e2.
  rewrite (Zdigits2_log2 (Zpos m2)) by lia. rewrite fexp64.
  split; [lia|]. split; [lia|]. reflexivity.
Qed.

(** The integer quotient computed by the division: it is positive, and its
    magnitude is the difference [D] of the operands' magnitudes or one more. *)
Lemma SFdiv_core_binary_spec (m1 m2 : positive) (e1 e2 : Z) :
  let D := Zdigits2 (Zpos m1) + e1 - (Zdigits2 (Zpos m2) + e2) in
  -1074 < D ->
  exists q e' l,
    SFdiv_core_binary prec emax (Zpos m1) e1 (Zpos m2) e2 = (q, e', l) /\
    0 < q /\
    D <= Zdigits2 q + e' <= D + 1 /\
    e' <= fexp prec emax D.
Proof.
  intros D HD.
  assert (ED : D = Z.log2 (Zpos m1) + 1 + e1
                   - (Z.log2 (Zpos m2) + 1 + e2)).
  { unfold D. rewrite !Zdigits2_log2 by lia. reflexivity. }
  unfold SFdiv_core_binary. fold D. clearbody D. rewrite !fexp64.
  remember (Z.min (Z.max (D - 53) (-1074)) (e1 - e2)) as e' eqn:Ee'.
  remember (e1 - e2 - e') as s eqn:Es.
  assert (Hs : 0 <= s) by lia.
  remember (match s with
            | Z.pos _ => Z.shiftl (Z.pos m1) s
            | 0 => Z.pos m1
            | Z.neg _ => 0
            end) as m' eqn:Em'.
  assert (Em : m' = Zpos m1 * 2 ^ s).
  { subst m'. destruct s as [|p|p]; try lia.
    rewrite Z.shiftl_mul_pow2 by lia. reflexivity. }
  clear Em'.
  pose proof (Z_div_mod m' (Zpos m2) ltac:(lia)) as Hdm.
  destruct (Z.div_eucl m' (Z.pos m2)) as [q r].
  exists q, e', (new_location (Z.pos m2) r). split; [reflexivity|].
  pose proof (Z.log2_spec (Zpos m1) ltac:(lia)) as [L1 U1].
  pose proof (Z.log2_spec (Zpos m2) ltac:(lia)) as [L2 U2].
  pose proof (Z.log2_nonneg (Zpos m1)) as N1.
  pose proof (Z.log2_nonneg (Zpos m2)) as N2.
  remember (Z.log2 (Zpos m1)) as l1. remember (Z.log2 (Zpos m2)) as l2.
  assert (Hk : 0 <= l1 + s - l2 - 1) by lia.
  assert (Hq : q = m' / Zpos m2).
  { destruct Hdm as [Hdm Hr].
    apply (Z.div_unique_pos m' (Zpos m2) q r); lia. }
  assert (Hlo : 2 ^ (l1 + s - l2 - 1) <= q).
  { rewrite Hq. apply Z.div_le_lower_bound; [lia|].
    rewrite Em.
    assert (2 ^ (l1 + s) <= Zpos m1 * 2 ^ s).
    { rewrite Z.pow_add_r by lia.
      apply Z.mul_le_mono_nonneg_r; [apply Z.pow_nonneg; lia|lia]. }
    assert (Z.pos m2 * 2 ^ (l1 + s - l2 - 1) <= 2 ^ (l1 + s)).
    { replace (l1 + s) with (Z.succ l2 + (l1 + s - l2 - 1)) at 2 by lia.
      rewrite Z.pow_add_r by lia.
      apply Z.mul_le_mono_nonneg_r; [apply Z.pow_nonneg; lia|lia]. }
    lia. }
  assert (Hhi : q < 2 ^ (l1 + s - l2 + 1)).
  { rewrite Hq. apply Z.div_lt_upper_bound; [lia|].
    rewrite Em.
    assert (Zpos m1 * 2 ^ s < 2 ^ (Z.succ l1 + s)).
    { rewrite Z.pow_add_r by lia.
      apply Z.mul_lt_mono_pos_r; [pow2_pos|lia]. }
    assert (2 ^ (Z.succ l1 + s) <= Z.pos m2 * 2 ^ (l1 + s - l2 + 1)).
    { replace (Z.succ l1 + s) with (l2 + (l1 + s - l2 + 1)) by lia.
      rewrite Z.pow_add_r by lia.
      apply Z.mul_le_mono_nonneg_r; [apply Z.pow_nonneg; lia|lia]. }
    lia. }
  assert (Hqpos : 0 < q).
  { pose proof (Z.pow_pos_nonneg 2 (l1 + s - l2 - 1)). lia. }
  split; [exact Hqpos|].
  rewrite (Zdigits2_log2 q Hqpos).
  apply Z.log2_le_pow2 in Hlo; [|lia].
  apply Z.log2_lt_pow2 in Hhi; [|lia].
  split; lia.
Qed.

(** A valid binary64 number has the canonical exponent of its magnitude. *)
Lemma bounded_mag (m : positive) (e : Z) :
  SpecFloat.bounded prec emax m e = true ->
  e = fexp prec emax (mag m e) /\ e <= 971.
Proof.
  unfold SpecFloat.bounded, canonical_mantissa, mag. intros H.
  apply andb_true_iff in H. destruct H as [H1 H2].
  apply Z.eqb_eq in H1. apply Z.leb_le in H2. simpl Zdigits2.
  split; [symmetry; exact H1|exact H2].
Qed.

(** The product of two positive numbers, the second one normal. *)
Lemma SFmul_pos_spec (mx my : positive) (ex ey : Z) :
  Zdigits2 (Zpos my) = 53 ->
  -1073 < mag mx ex + mag my ey ->
  exists (m' : positive) (e' : Z),
    mag mx ex + mag my ey - 1 <= mag m' e' <= mag mx ex + mag my ey + 1 /\
    e' = fexp prec emax (mag m' e') /\
    SFmul prec emax (S754_finite false mx ex) (S754_finite false my ey)
    = if e' <=? emax - prec then S754_finite false m' e'
      else S754_infinity false.
Proof.
  unfold mag. intros Hy Hm. simpl SFmul.
  pose proof (Z.log2_mul_below (Zpos mx) (Zpos my)) as Hlo.
  pose proof (Z.log2_mul_above (Zpos mx) (Zpos my)) as Hhi.
  pose proof (Z.log2_nonneg (Zpos mx)) as Hx.
  rewrite (Zdigits2_log2 (Zpos mx)), (Zdigits2_log2 (Zpos my)) in * by lia.
  destruct (binary_round_aux_spec false (Zpos (mx * my)) (ex + ey)
              loc_Exact) as (m' & e' & Hmag & Hcan & Heq).
  - lia.
  - rewrite Zdigits2_log2, Pos2Z.inj_mul by lia. lia.
  - rewrite Zdigits2_log2, Pos2Z.inj_mul, fexp64 by lia. lia.
  - exists m', e'.
    rewrite (Zdigits2_log2 (Zpos (mx * my))), Pos2Z.inj_mul in Hmag by lia.
    split; [lia|]. split; assumption.
Qed.

(** The quotient of two positive numbers. *)
Lemma SFdiv_pos_spec (mx my : positive) (ex ey : Z) :
  -1074 < mag mx ex - mag my ey ->
  exists (m' : positive) (e' : Z),
    mag mx ex - mag my ey <= mag m' e' <= mag mx ex - mag my ey + 2 /\
    e' = fexp prec emax (mag m' e') /\
    SFdiv prec emax (S754_finite false mx ex) (S754_finite false my ey)
    = if e' <=? emax - prec then S754_finite false m' e'
      else S754_infinity false.
Proof.
  unfold mag. intros HD. simpl SFdiv.
  destruct (SFdiv_core_binary_spec mx my ex ey HD)
    as (q & e0 & l & Hcore & Hq & Hmq & He0).
  rewrite Hcore.
  destruct (binary_round_aux_spec false q e0 l Hq)
    as (m' & e' & Hmag & Hcan & Heq).
  - lia.
  - rewrite fexp64 in *. lia.
  - exists m', e'. split; [lia|]. split; assumption.
Qed.
End Rounding.

(** ** Comparisons, signs and classes of binary64 values *)

Section FloatOrder.
Local Open Scope float_scope.

Lemma SFcompare_antisym (a b : spec_float) :
  SFcompare b a = option_map CompOpp (SFcompare a b).
Proof.
  destruct a as [sa|sa| |sa ma ea], b as [sb|sb| |sb mb eb]; simpl;
    try reflexivity;
    try (destruct sa; reflexivity); try (destruct sb; reflexivity);
    try (destruct sa, sb; reflexivity).
  destruct sa, sb; simpl; try reflexivity;
    rewrite (Z.compare_antisym ea eb);
    destruct (ea ?= eb)%Z; simpl; try reflexivity;
    rewrite !Pos.compare_cont_antisym; reflexivity.
Qed.

Lemma ltb_not_leb (a b : float) : (a <? b) = true -> (b <=? a) = false.
Proof.
  rewrite ltb_spec, leb_spec. unfold SFltb, SFleb.
  rewrite (SFcompare_antisym (Prim2SF a) (Prim2SF b)).
  destruct (SFcompare (Prim2SF a) (Prim2SF b)) as [[| |]|]; simpl;
    congruence.
Qed.

Lemma abs_opp (a : float) : abs (- a) = abs a.
Proof.
  apply Prim2SF_inj. rewrite !abs_spec, opp_spec.
  destruct (Prim2SF a); reflexivity.
Qed.
End FloatOrder.

Section FloatClasses.
Local Open Scope float_scope.

Lemma is_finite_SF (a : float) :
  is_finite a
  = match Prim2SF a with
    | S754_zero _ | S754_finite _ _ _ => true
    | _ => false
    end.
Proof.
  unfold is_finite, is_nan, is_infinity. rewrite !eqb_spec, abs_spec.
  change (Prim2SF infinity) with (S754_infinity false).
  destruct (Prim2SF a) as [[|]|[|]| |[|] m e]; unfold SFeqb; simpl;
    rewrite ?Z.compare_refl, ?Pos.compare_cont_refl; reflexivity.
Qed.

Lemma positive_cases (a : float) :
  (0 <? a) = true ->
  Prim2SF a = S754_infinity false \/
  exists m e, Prim2SF a = S754_finite false m e /\
              SpecFloat.bounded prec emax m e = true.
Proof.
  rewrite ltb_spec. change (Prim2SF 0) with (S754_zero false).
  pose proof (Prim2SF_valid a) as Hv.
  destruct (Prim2SF a) as [s|s| |s m e]; unfold SFltb; simpl;
    try discriminate; destruct s; try discriminate; intros _.
  - left; reflexivity.
  - right. exists m, e. split; [reflexivity|exact Hv].
Qed.

Lemma not_le_0_cases (a : float) :
  (a <=? 0) = false -> Prim2SF a = S754_nan \/ (0 <? a) = true.
Proof.
  rewrite ltb_spec, leb_spec. change (Prim2SF 0) with (S754_zero false).
  destruct (Prim2SF a) as [s|s| |s m e]; unfold SFltb, SFleb; simpl;
    try discriminate; try (destruct s; try discriminate); auto.
Qed.

Lemma SFleb_exponents (m1 m2 : positive) (e1 e2 : Z) :
  SFleb (S754_finite false m1 e1) (S754_finite false m2 e2) = true ->
  (e1 <= e2)%Z.
Proof.
  unfold SFleb; simpl. destruct (Z.compare_spec e1 e2); try lia; discriminate.
Qed.
End FloatClasses.

Section FloatEquality.
Local Open Scope float_scope.

Lemma eqb_or_ltb_leb (a b : float) :
  (a =? b) = true \/ (a <? b) = true -> (a <=? b) = true.
Proof.
  rewrite eqb_spec, ltb_spec, leb_spec. unfold SFeqb, SFltb, SFleb.
  destruct (SFcompare (Prim2SF a) (Prim2SF b)) as [[| |]|];
    intros [H|H]; try discriminate H; reflexivity.
Qed.

(** Float equality with a non-zero finite number is equality of values
    ([0.0 == -0.0] is the one case where [==] relates two values). *)
Lemma eqb_finite_eq (v c : float) (s : bool) (m : positive) (e : Z) :
  Prim2SF c = S754_finite s m e -> (v =? c) = true -> v = c.
Proof.
  intros Hc H. apply Prim2SF_inj. rewrite eqb_spec, Hc in H. rewrite Hc.
  unfold SFeqb in H.
  destruct (Prim2SF v) as [sv|[|]| |sv mv ev]; simpl in H;
    try discriminate H; try (destruct s; discriminate H).
  destruct sv, s; try discriminate H;
    destruct (Z.compare_spec ev e) as [E|E|E]; try discriminate H;
    subst ev;
    destruct (Pos.compare_cont Eq mv m) eqn:Em; try discriminate H;
    apply Pos.compare_eq in Em; subst mv; reflexivity.
Qed.
End FloatEquality.

Section FloatSigns.
Local Open Scope float_scope.

Lemma binary_round_aux_sign (s : bool) (m e : Z) (l : location) :
  binary_round_aux prec emax s m e l = S754_nan \/
  binary_round_aux prec emax s m e l = S754_zero s \/
  binary_round_aux prec emax s m e l = S754_infinity s \/
  exists m' e', binary_round_aux prec emax s m e l = S754_finite s m' e'.
Proof.
  unfold binary_round_aux.
  destruct (shr_fexp prec emax m e l) as [mrs' e'].
  destruct (shr_fexp prec emax _ e' loc_Exact) as [mrs'' e''].
  destruct (shr_m mrs'') as [|p|p]; auto.
  destruct (e'' <=? emax - prec)%Z; [|auto].
  right; right; right. exists p, e''. reflexivity.
Qed.

Lemma abs_le_0 (xi : float) : (abs xi <=? 0) = true -> abs xi = 0.
Proof.
  intros H. apply Prim2SF_inj. rewrite leb_spec, abs_spec in H.
  rewrite abs_spec. change (Prim2SF 0) with (S754_zero false) in *.
  destruct (Prim2SF xi) as [s|[|]| |[|] m e]; try discriminate H; reflexivity.
Qed.

(** Halving a value that is [<= 0] gives a zero, a negative number, [-inf],
    or (never, but that is not needed here) NaN. *)
Lemma half_of_nonpositive (L : float) :
  (L <=? 0) = true ->
  (exists s, Prim2SF (L / 2) = S754_zero s) \/
  Prim2SF (L / 2) = S754_nan \/
  Prim2SF (L / 2) = S754_infinity true \/
  exists m e, Prim2SF (L / 2) = S754_finite true m e.
Proof.
  rewrite leb_spec, div_spec.
  change (Prim2SF 0) with (S754_zero false).
  change (Prim2SF 2) with (S754_finite false 4503599627370496 (-51)).
  destruct (Prim2SF L) as [s|[|]| |[|] m e]; try discriminate; intros _.
  - left. exists s. destruct s; reflexivity.
  - right; right; left. reflexivity.
  - unfold SF64div, SFdiv.
    destruct (SFdiv_core_binary _ _ _ _ _ _) as [[mz ez] lz].
    cbv beta iota. change (xorb true false) with true.
    destruct (binary_round_aux_sign true mz ez lz)
      as [H|[H|[H|(m' & e' & H)]]]; rewrite H; eauto 6.
Qed.

(** With a half-length that is [<= 0], a position is inside only when both
    are zeros, and the argument of the sine is then a zero. *)
Lemma inside_nonpositive (L xi : float) :
  (L <=? 0) = true -> (abs xi <=? L / 2) = true ->
  2 * F64.np_pi * (L / 2 - abs xi) = 0 \/
  2 * F64.np_pi * (L / 2 - abs xi) = (- 0).
Proof.
  intros HL Hin.
  assert (H : exists s, Prim2SF (2 * F64.np_pi * (L / 2 - abs xi))
                        = S754_zero s).
  { rewrite mul_spec, sub_spec. rewrite leb_spec in Hin.
    rewrite abs_spec in *.
    change (Prim2SF (2 * F64.np_pi))
      with (S754_finite false 7074237752028440 (-50)).
    destruct (half_of_nonpositive L HL)
      as [[s H]|[H|[H|(m & e & H)]]]; rewrite H in *;
      destruct (Prim2SF xi) as [sx|[|]| |[|] mx ex];
      try discriminate Hin.
    exists s. destruct s; reflexivity. }
  destruct H as [[|] H]; [right|left]; apply Prim2SF_inj; rewrite H;
    reflexivity.
Qed.
End FloatSigns.

(** ** The wavelength and the lengths over binary64 *)

Section WavelengthF64.
Import F64.
Local Open Scope float_scope.

(** [1e6] is [8589934592000000 * 2^-33], of magnitude 20. *)
Lemma SF_times_1e6 (mf : positive) (ef : Z) :
  SpecFloat.bounded prec emax mf ef = true ->
  exists (m' : positive) (e' : Z),
    (mag mf ef + 19 <= mag m' e' <= mag mf ef + 21)%Z /\
    e' = fexp prec emax (mag m' e') /\
    SF64mul (S754_finite false mf ef) (Prim2SF 1e6)
    = if (e' <=? 971)%Z then S754_finite false m' e'
      else S754_infinity false.
Proof.
  intros Hb. apply bounded_mag in Hb. destruct Hb as [Hc He].
  change (Prim2SF 1e6) with (S754_finite false 8589934592000000 (-33)).
  assert (Hd : (1 <= Zdigits2 (Zpos mf))%Z) by (simpl; lia).
  rewrite fexp64 in Hc.
  destruct (SFmul_pos_spec mf 8589934592000000 ef (-33))
    as (m' & e' & Hmag & Hcan & Heq).
  - reflexivity.
  - change (mag 8589934592000000 (-33)) with 20%Z. unfold mag in *. lia.
  - change (mag 8589934592000000 (-33)) with 20%Z in Hmag.
    exists m', e'. split; [lia|]. split; [exact Hcan|exact Heq].
Qed.

(** [C] is [5029682823036928 * 2^-24], of magnitude 29. *)
Lemma SF_C_over (mp : positive) (ep : Z) :
  ep = fexp prec emax (mag mp ep) -> (ep <= 971)%Z ->
  exists (m' : positive) (e' : Z),
    (29 - mag mp ep <= mag m' e' <= 31 - mag mp ep)%Z /\
    e' = fexp prec emax (mag m' e') /\
    SF64div (Prim2SF C) (S754_finite false mp ep)
    = if (e' <=? 971)%Z then S754_finite false m' e'
      else S754_infinity false.
Proof.
  intros Hc He. rewrite fexp64 in Hc.
  change (Prim2SF C) with (S754_finite false 5029682823036928 (-24)).
  destruct (SFdiv_pos_spec 5029682823036928 mp (-24) ep)
    as (m' & e' & Hmag & Hcan & Heq).
  - change (mag 5029682823036928 (-24)) with 29%Z. lia.
  - change (mag 5029682823036928 (-24)) with 29%Z in Hmag.
    exists m', e'. split; [lia|]. split; [exact Hcan|exact Heq].
Qed.

(** The product [freq_mhz * 1e6] of a positive frequency is positive or
    [+inf], never zero. *)
Lemma scaled_frequency (freq_mhz : float) :
  (0 <? freq_mhz) = true ->
  Prim2SF (freq_mhz * 1e6) = S754_infinity false \/
  exists m e,
    Prim2SF (freq_mhz * 1e6) = S754_finite false m e /\
    e = fexp prec emax (mag m e) /\ (e <= 971)%Z /\
    forall mf ef, Prim2SF freq_mhz = S754_finite false mf ef ->
      (mag mf ef + 19 <= mag m e <= mag mf ef + 21)%Z.
Proof.
  intros Hpos. rewrite mul_spec.
  destruct (positive_cases _ Hpos) as [Hinf|(mf & ef & Hf & Hb)];
    rewrite ?Hinf, ?Hf.
  - left. reflexivity.
  - destruct (SF_times_1e6 mf ef Hb) as (m' & e' & Hmag & Hcan & Heq).
    rewrite Heq. destruct (e' <=? 971)%Z eqn:E; [right|left; reflexivity].
    apply Z.leb_le in E. exists m', e'. repeat split; try assumption;
      injection H as <- <-; lia.
Qed.

Lemma wavelength_m_returns (freq_mhz : float) :
  (freq_mhz <=? 0) = false ->
  wavelength_m freq_mhz = Ok (C / (freq_mhz * 1e6)).
Proof.
  intros Hf. unfold wavelength_m, truediv.
  replace (freq_mhz * 1e6 =? 0) with false; [reflexivity|].
  rewrite eqb_spec. change (Prim2SF 0) with (S754_zero false).
  destruct (not_le_0_cases _ Hf) as [Hnan|Hpos].
  - rewrite mul_spec, Hnan. reflexivity.
  - destruct (scaled_frequency _ Hpos) as [Hp|(m & e & Hp & _)];
      rewrite Hp; reflexivity.
Qed.
End WavelengthF64.

Section WavelengthRange.
Import F64.
Local Open Scope float_scope.

Lemma wavelength_sign (freq_mhz : float) :
  (0 <? freq_mhz) = true -> (0 <=? C / (freq_mhz * 1e6)) = true.
Proof.
  intros Hpos. rewrite leb_spec, div_spec.
  change (Prim2SF 0) with (S754_zero false).
  destruct (scaled_frequency _ Hpos) as [Hp|(m & e & Hp & Hc & He & _)];
    rewrite Hp.
  - reflexivity.
  - destruct (SF_C_over m e Hc He) as (m' & e' & _ & _ & Heq).
    rewrite Heq. destruct (e' <=? 971)%Z; reflexivity.
Qed.

(** The wavelength is positive exactly when the product does not overflow. *)
Lemma wavelength_positive (freq_mhz : float) :
  (0 <? freq_mhz) = true ->
  (0 <? C / (freq_mhz * 1e6)) = is_finite (freq_mhz * 1e6).
Proof.
  intros Hpos. rewrite ltb_spec, div_spec, is_finite_SF.
  change (Prim2SF 0) with (S754_zero false).
  destruct (scaled_frequency _ Hpos) as [Hp|(m & e & Hp & Hc & He & _)];
    rewrite Hp.
  - reflexivity.
  - destruct (SF_C_over m e Hc He) as (m' & e' & _ & _ & Heq).
    rewrite Heq. destruct (e' <=? 971)%Z; reflexivity.
Qed.

Lemma wavelength_finite (freq_mhz : float) (mf : positive) (ef : Z) :
  Prim2SF freq_mhz = S754_finite false mf ef ->
  (-1012 <= mag mf ef <= 1003)%Z ->
  exists m e, Prim2SF (C / (freq_mhz * 1e6)) = S754_finite false m e.
Proof.
  intros Hf Hmag.
  pose proof (Prim2SF_valid freq_mhz) as Hb. rewrite Hf in Hb. simpl in Hb.
  rewrite div_spec, mul_spec, Hf.
  destruct (SF_times_1e6 mf ef Hb) as (mp & ep & Hmp & Hcp & Hp).
  rewrite Hp. pose proof Hcp as Hcp'. rewrite fexp64 in Hcp'.
  replace (ep <=? 971)%Z with true by (symmetry; apply Z.leb_le; lia).
  destruct (SF_C_over mp ep Hcp ltac:(lia)) as (m & e & Hm & Hc & Hq).
  rewrite Hq. rewrite fexp64 in Hc.
  replace (e <=? 971)%Z with true by (symmetry; apply Z.leb_le; lia).
  exists m, e. reflexivity.
Qed.

Lemma frequency_range (freq_mhz : float) :
  (1e-300 <=? freq_mhz) = true -> (freq_mhz <=? 1e300) = true ->
  exists mf ef,
    Prim2SF freq_mhz = S754_finite false mf ef /\
    (-996 <= mag mf ef <= 997)%Z.
Proof.
  rewrite !leb_spec.
  change (Prim2SF 1e-300)
    with (S754_finite false 6032057205060441 (-1049)).
  change (Prim2SF 1e300)
    with (S754_finite false 6724873095247260 944).
  pose proof (Prim2SF_valid freq_mhz) as Hb. intros Hlo Hhi.
  destruct (Prim2SF freq_mhz) as [[|]|[|]| |[|] mf ef];
    try discriminate Hlo; try discriminate Hhi.
  - apply SFleb_exponents in Hlo, Hhi.
    apply bounded_mag in Hb. destruct Hb as [Hc _]. rewrite fexp64 in Hc.
    exists mf, ef. split; [reflexivity|]. unfold mag in *. lia.
Qed.
End WavelengthRange.

Section WavelengthClaims.
Import F64.
Local Open Scope float_scope.

(** C2, as the code has it: for every [frequency_mhz > 0], [wavelength_m]
    returns (it does not raise) the binary64 value of
    [299792458 / (frequency_mhz * 1e6)]; that value is never negative and
    never NaN, it is positive exactly when the product
    [frequency_mhz * 1e6] does not overflow, and it is positive and finite
    for every frequency between [1e-300] and [1e300] MHz. *)
Theorem wavelength_m_positive_frequency (frequency_mhz : float) :
  (0 <? frequency_mhz) = true ->
  wavelength_m frequency_mhz = Ok (299792458 / (frequency_mhz * 1e6)) /\
  (0 <=? 299792458 / (frequency_mhz * 1e6)) = true /\
  (0 <? 299792458 / (frequency_mhz * 1e6))
  = is_finite (frequency_mhz * 1e6) /\
  ((1e-300 <=? frequency_mhz) = true -> (frequency_mhz <=? 1e300) = true ->
   (0 <? 299792458 / (frequency_mhz * 1e6)) = true /\
   is_finite (299792458 / (frequency_mhz * 1e6)) = true).
Proof.
  intros Hpos. fold C. split; [|split; [|split]].
  - apply wavelength_m_returns, ltb_not_leb, Hpos.
  - apply wavelength_sign, Hpos.
  - apply wavelength_positive, Hpos.
  - intros Hlo Hhi.
    destruct (frequency_range _ Hlo Hhi) as (mf & ef & Hf & Hmag).
    destruct (wavelength_finite _ mf ef Hf ltac:(lia)) as (m & e & Hq).
    split.
    + rewrite ltb_spec, Hq. reflexivity.
    + rewrite is_finite_SF, Hq. reflexivity.
Qed.

(** The default frequency, 100 MHz, meets the hypotheses of C2. *)
Lemma wavelength_m_positive_frequency_witness :
  (0 <? 100) = true /\
  (1e-300 <=? 100) = true /\ (100 <=? 1e300) = true /\
  wavelength_m 100 = Ok (299792458 / (100 * 1e6)) /\
  (0 <? 299792458 / (100 * 1e6)) = true /\
  is_finite (299792458 / (100 * 1e6)) = true.
Proof.
  destruct (wavelength_m_positive_frequency 100 eq_refl)
    as (Hret & _ & _ & Hrange).
  destruct (Hrange eq_refl eq_refl) as [Hpos Hfin].
  repeat split; assumption.
Defined.

(** C2 as stated fails at both ends of the binary64 range: for the positive
    frequency [1e-310] the quotient overflows and the wavelength is [+inf],
    which is not finite; for the positive frequency [1e303] the product
    [frequency_mhz * 1e6] overflows and the wavelength is [0], which is not
    positive. *)
Lemma wavelength_m_overflow :
  ((0 <? 1e-310) = true /\
   wavelength_m 1e-310 = Ok infinity /\ is_finite infinity = false) /\
  ((0 <? 1e303) = true /\
   wavelength_m 1e303 = Ok 0 /\ (0 <? 0) = false).
Proof. vm_compute. repeat split. Qed.

(** C3: for every [frequency_mhz > 0] (and any velocity factor and length
    multiplier, in particular positive ones) [lengths] returns the triple of
    the wavelength [wavelength_m frequency_mhz], the total length
    [length_multiplier * wavelength * velocity_factor], and the arm length,
    which is the total length divided by 2. *)
Theorem lengths_spec (frequency_mhz velocity_factor length_multiplier : float) :
  (0 <? frequency_mhz) = true ->
  (0 <? velocity_factor) = true ->
  (0 <? length_multiplier) = true ->
  exists wavelength total_length arm_length,
    lengths frequency_mhz velocity_factor length_multiplier
    = Ok (wavelength, total_length, arm_length) /\
    wavelength_m frequency_mhz = Ok wavelength /\
    total_length = length_multiplier * wavelength * velocity_factor /\
    arm_length = total_length / 2.
Proof.
  intros Hf _ _. unfold lengths.
  rewrite (wavelength_m_returns _ (ltb_not_leb _ _ Hf)). simpl.
  eexists _, _, _. repeat split.
Qed.

(** The defaults meet the hypotheses of C3. *)
Lemma lengths_spec_witness :
  (0 <? 100) = true /\ (0 <? 0.95) = true /\ (0 <? 0.5) = true /\
  exists wavelength total_length arm_length,
    lengths 100 0.95 0.5 = Ok (wavelength, total_length, arm_length) /\
    wavelength_m 100 = Ok wavelength /\
    total_length = 0.5 * wavelength * 0.95 /\
    arm_length = total_length / 2.
Proof.
  repeat (split; [reflexivity|]).
  apply (lengths_spec 100 0.95 0.5); reflexivity.
Defined.
End WavelengthClaims.

(** ** The wavelength and the lengths over the reals, and the documented
    scenario *)

Section IdealLengths.
Local Open Scope R_scope.

Remark ideal_wavelength_positive (freq_mhz : R) :
  0 < freq_mhz ->
  Ideal.wavelength_m freq_mhz = Ok (299792458 / (freq_mhz * 1e6)) /\
  0 < 299792458 / (freq_mhz * 1e6).
Proof.
  intros Hf. unfold Ideal.wavelength_m, Ideal.truediv, Ideal.C.
  destruct (Req_dec_T (freq_mhz * 1e6) 0) as [E|_]; [lra|].
  split; [reflexivity|]. apply Rdiv_lt_0_compat; lra.
Qed.

(** 100 MHz, velocity factor 0.95, half-wave: 2.99792458 m, about 1.42401 m
    and about 0.71200 m. *)
Example ideal_lengths_defaults :
  Ideal.lengths 100 0.95 0.5
  = Ok (2.99792458, 1.4240141755, 0.71200708775).
Proof.
  unfold Ideal.lengths.
  destruct (ideal_wavelength_positive 100 ltac:(lra)) as [-> _]. simpl.
  do 2 f_equal; [f_equal|]; lra.
Qed.

(** The same scenario in binary64. *)
Example lengths_defaults :
  F64.lengths 100 0.95 0.5
  = Ok (2.9979245799999998, 1.4240141754999998,
        0.71200708774999988)%float.
Proof. vm_compute. reflexivity. Qed.
End IdealLengths.

(** ** The current profile over binary64 *)

Section ProfileF64.
Import F64.
Local Open Scope float_scope.
Variable libm_sin : float -> float.

Lemma current_distribution_map (x : list float) (L_elec_lambda : float) :
  current_distribution libm_sin x L_elec_lambda
  = Ok (map (current_at libm_sin (L_elec_lambda / 2)) x).
Proof.
  unfold current_distribution.
  rewrite (getmask_map (fun xi => abs xi <=? L_elec_lambda / 2)). simpl.
  apply (setmask_map (fun xi => abs xi <=? L_elec_lambda / 2)).
Qed.

(** C1: [current_distribution] returns (it does not raise) an array as long
    as [positions]; at each position [xi], with [half = length_multiplier / 2],
    the element is 0 when [|xi| > half] and is [sin(2 pi (half - |xi|))] when
    [|xi| <= half]. *)
Theorem current_distribution_piecewise
  (positions : list float) (length_multiplier : float) :
  exists I,
    current_distribution libm_sin positions length_multiplier = Ok I /\
    List.length I = List.length positions /\
    forall i xi, nth_error positions i = Some xi ->
      ((length_multiplier / 2 <? abs xi) = true -> nth_error I i = Some 0) /\
      ((abs xi <=? length_multiplier / 2) = true ->
         nth_error I i
         = Some (np_sin libm_sin
                   (2 * np_pi * (length_multiplier / 2 - abs xi)))).
Proof.
  eexists. split; [apply current_distribution_map|].
  split; [apply length_map|].
  intros i xi Hi. rewrite nth_error_map, Hi. simpl. unfold current_at.
  split; intros H.
  - rewrite (ltb_not_leb _ _ H). reflexivity.
  - rewrite H. reflexivity.
Qed.

(** C4: the profile is even in the position: negating every position (in
    particular a single one) leaves the computed array unchanged. *)
Theorem current_distribution_even
  (positions : list float) (length_multiplier : float) :
  current_distribution libm_sin (map opp positions) length_multiplier
  = current_distribution libm_sin positions length_multiplier.
Proof.
  rewrite !current_distribution_map, map_map. f_equal.
  apply map_ext. intros xi. unfold current_at. rewrite abs_opp. reflexivity.
Qed.
End ProfileF64.

(** C1 on two positions, one inside and one outside a half-wave antenna. *)
Lemma current_distribution_piecewise_witness :
  exists I,
    F64.current_distribution Demo.libm_sin [0.1; -1.5]%float 0.5%float
    = Ok I /\
    nth_error I 0
    = Some (F64.np_sin Demo.libm_sin
              (2 * F64.np_pi * (0.5 / 2 - abs 0.1))%float) /\
    nth_error I 1 = Some 0%float.
Proof.
  destruct (current_distribution_piecewise
              Demo.libm_sin [0.1; -1.5]%float 0.5%float)
    as (I & H & _ & Hp).
  exists I. split; [exact H|]. split.
  - apply (Hp 0%nat 0.1%float); reflexivity.
  - apply (Hp 1%nat (-1.5)%float); reflexivity.
Defined.

(** ** The current profile over the reals *)

Section ProfileIdeal.
Import Ideal.
Local Open Scope R_scope.

Lemma ideal_current_distribution_map (x : list R) (L_elec_lambda : R) :
  current_distribution x L_elec_lambda
  = Ok (map (current_at (L_elec_lambda / 2)) x).
Proof.
  unfold current_distribution.
  rewrite (getmask_map (fun xi => leb (Rabs xi) (L_elec_lambda / 2))). simpl.
  apply (setmask_map (fun xi => leb (Rabs xi) (L_elec_lambda / 2))).
Qed.

Lemma leb_le (a b : R) : a <= b -> leb a b = true.
Proof. intros H. unfold leb. destruct (Rle_dec a b); [reflexivity|tauto]. Qed.

Lemma leb_gt (a b : R) : b < a -> leb a b = false.
Proof. intros H. unfold leb. destruct (Rle_dec a b); [lra|reflexivity]. Qed.

Lemma current_at_inside (half xi : R) :
  Rabs xi <= half -> current_at half xi = sin (2 * PI * (half - Rabs xi)).
Proof. intros H. unfold current_at. rewrite (leb_le _ _ H). reflexivity. Qed.

Lemma current_at_bounds (half xi : R) : -1 <= current_at half xi <= 1.
Proof.
  unfold current_at. destruct (leb (Rabs xi) half); [apply SIN_bound|lra].
Qed.

(** With a length that is [<= 0] only [x = 0] can be inside, and only at
    length 0; the sine is then taken at 0. *)
Lemma ideal_current_at_nonpositive (L xi : R) :
  L <= 0 -> current_at (L / 2) xi = 0.
Proof.
  intros HL. unfold current_at, leb.
  destruct (Rle_dec (Rabs xi) (L / 2)) as [H|H]; [|reflexivity].
  pose proof (Rabs_pos xi).
  replace (L / 2 - Rabs xi) with 0 by lra.
  rewrite Rmult_0_r. apply sin_0.
Qed.

(** The values of the full-wave profile: peaks at a quarter wavelength from
    the centre, nulls at the centre and at the ends. *)
Lemma full_wave_values :
  current_at (1.0 / 2) 0.25 = 1 /\ current_at (1.0 / 2) (- 0.25) = 1 /\
  current_at (1.0 / 2) 0 = 0 /\
  current_at (1.0 / 2) 0.5 = 0 /\ current_at (1.0 / 2) (- 0.5) = 0.
Proof.
  assert (A1 : Rabs 0.25 = 0.25) by (unfold Rabs; destruct Rcase_abs; lra).
  assert (A2 : Rabs (- 0.25) = 0.25) by (unfold Rabs; destruct Rcase_abs; lra).
  assert (A3 : Rabs 0.5 = 0.5) by (unfold Rabs; destruct Rcase_abs; lra).
  assert (A4 : Rabs (- 0.5) = 0.5) by (unfold Rabs; destruct Rcase_abs; lra).
  repeat split; rewrite current_at_inside;
    rewrite ?A1, ?A2, ?A3, ?A4, ?Rabs_R0; try lra.
  - replace (2 * PI * (1.0 / 2 - 0.25)) with (PI / 2) by lra. apply sin_PI2.
  - replace (2 * PI * (1.0 / 2 - 0.25)) with (PI / 2) by lra. apply sin_PI2.
  - replace (2 * PI * (1.0 / 2 - 0)) with PI by lra. apply sin_PI.
  - replace (2 * PI * (1.0 / 2 - 0.5)) with 0 by lra. apply sin_0.
  - replace (2 * PI * (1.0 / 2 - 0.5)) with 0 by lra. apply sin_0.
Qed.
End ProfileIdeal.

(** ** Peaks and nulls of the profile *)

Section ProfileValues.
Local Open Scope R_scope.

Lemma f64_current_at_zero_length (libm_sin : float -> float) (xi : float) :
  libm_sin 0%float = 0%float ->
  F64.current_at libm_sin (0 / 2)%float xi = 0%float.
Proof.
  intros H0. unfold F64.current_at. change (0 / 2)%float with 0%float.
  destruct (abs xi <=? 0)%float eqn:E; [|reflexivity].
  rewrite (abs_le_0 _ E).
  change (2 * F64.np_pi * (0 - 0))%float with 0%float.
  unfold F64.np_sin. change (is_finite 0) with true. exact H0.
Qed.

(** C9: with [length_multiplier = 0] the profile is all-zero over every
    positions sequence, over the reals and over binary64 (for a sine with
    [sin(0) = 0]): a position with [|x| > 0] is outside and gives 0, and the
    position [x = 0] is inside and evaluates to [sin(0) = 0]. *)
Theorem zero_length_profile :
  (forall positions : list R,
     Ideal.current_distribution positions 0
     = Ok (map (fun _ => 0) positions)) /\
  (forall x : R, 0 < Rabs x -> Ideal.leb (Rabs x) (0 / 2) = false) /\
  (Ideal.leb (Rabs 0) (0 / 2) = true /\
   Ideal.current_at (0 / 2) 0 = sin 0 /\ sin 0 = 0) /\
  (forall (libm_sin : float -> float) (positions : list float),
     libm_sin 0%float = 0%float ->
     F64.current_distribution libm_sin positions 0%float
     = Ok (map (fun _ => 0%float) positions)).
Proof.
  split; [|split; [|split]].
  - intros positions. rewrite ideal_current_distribution_map. f_equal.
    apply map_ext. intros xi. apply ideal_current_at_nonpositive. lra.
  - intros x Hx. apply leb_gt. lra.
  - assert (E : Ideal.leb (Rabs 0) (0 / 2) = true).
    { apply leb_le. rewrite Rabs_R0. lra. }
    split; [exact E|]. split; [|apply sin_0].
    unfold Ideal.current_at. rewrite E, Rabs_R0. f_equal. lra.
  - intros libm_sin positions H0. rewrite current_distribution_map. f_equal.
    apply map_ext. intros xi. apply f64_current_at_zero_length, H0.
Qed.

(** C9 over binary64 with the identity in place of the sine. *)
Lemma zero_length_profile_witness :
  F64.current_distribution (fun y => y) [0; 0.3; -1.5]%float 0%float
  = Ok [0; 0; 0]%float.
Proof.
  exact (proj2 (proj2 (proj2 zero_length_profile))
           (fun y => y) [0; 0.3; -1.5]%float eq_refl).
Defined.

End ProfileValues.

Section FullWave.
Local Open Scope R_scope.

Lemma ideal_full_wave :
  Ideal.current_distribution [0.25; -0.25; 0; 0.5; -0.5] 1.0
  = Ok [1; 1; 0; 0; 0].
Proof.
  rewrite ideal_current_distribution_map. simpl.
  destruct full_wave_values as (E1 & E2 & E3 & E4 & E5).
  rewrite E1, E2, E3, E4, E5. reflexivity.
Qed.

(** C5 as stated fails: with [length_multiplier = 1.0] the profile at
    [x = 0.25] and at [x = -0.25] is [sin(2 pi 0.25) = 1], not 0. *)
Lemma full_wave_quarter_is_peak :
  Ideal.current_distribution [0.25; -0.25] 1.0 = Ok [1; 1] /\
  Ideal.current_distribution [0.25; -0.25] 1.0 <> Ok [0; 0].
Proof.
  assert (E : Ideal.current_distribution [0.25; -0.25] 1.0 = Ok [1; 1]).
  { rewrite ideal_current_distribution_map. simpl.
    destruct full_wave_values as (E1 & E2 & _). rewrite E1, E2. reflexivity. }
  split; [exact E|]. rewrite E. intros [= H]. lra.
Qed.

(** C5, as the code has it: with [length_multiplier = 1.0] the profile at
    [x = 0.25] and [x = -0.25] is [sin(2 pi 0.25) = 1]; it is 0 at the centre
    [x = 0], where it is [sin(2 pi 0.5)], and at the ends [x = 0.5] and
    [x = -0.5], where it is [sin(0)].  The binary64 program evaluates the sine
    at the same arguments: at the quarter points the argument of the
    half-wave peak, at the centre [2 * np.pi * 0.5], at the ends 0. *)
Theorem full_wave_profile :
  Ideal.current_distribution [0.25; -0.25; 0; 0.5; -0.5] 1.0
  = Ok [sin (2 * PI * 0.25); sin (2 * PI * 0.25);
        sin (2 * PI * 0.5); sin 0; sin 0] /\
  sin (2 * PI * 0.25) = 1 /\ sin (2 * PI * 0.5) = 0 /\ sin 0 = 0 /\
  (forall libm_sin : float -> float,
     F64.current_distribution libm_sin [0.25; -0.25; 0; 0.5; -0.5]%float
       1.0%float
     = Ok [F64.np_sin libm_sin (2 * F64.np_pi * 0.25)%float;
           F64.np_sin libm_sin (2 * F64.np_pi * 0.25)%float;
           F64.np_sin libm_sin (2 * F64.np_pi * 0.5)%float;
           F64.np_sin libm_sin 0%float; F64.np_sin libm_sin 0%float]).
Proof.
  assert (S1 : sin (2 * PI * 0.25) = 1).
  { replace (2 * PI * 0.25) with (PI / 2) by lra. apply sin_PI2. }
  assert (S2 : sin (2 * PI * 0.5) = 0).
  { replace (2 * PI * 0.5) with PI by lra. apply sin_PI. }
  split; [|split; [exact S1|split; [exact S2|split; [apply sin_0|]]]].
  - rewrite S1, S2, sin_0. apply ideal_full_wave.
  - intros libm_sin. vm_compute. reflexivity.
Qed.
End FullWave.

(** ** Range of the profile *)

Section ProfileRange.
Import F64.
Local Open Scope float_scope.

(** C10 as stated fails: with [length_multiplier = 1e308] the product
    [2 pi (half - |x|)] at [x = 0] overflows to [+inf], whose sine is NaN,
    and NaN is not in [[-1, 1]]. *)
Lemma current_distribution_overflow :
  (forall libm_sin : float -> float,
     current_distribution libm_sin [0] 1e308 = Ok [nan]) /\
  (2 * np_pi * (1e308 / 2 - abs 0) = infinity) /\
  in_unit nan = false.
Proof.
  split; [|split]; [intros libm_sin| |]; vm_compute; reflexivity.
Qed.

Lemma current_at_range (libm_sin : float -> float) (half xi : float) :
  (forall y, is_finite y = true -> in_unit (libm_sin y) = true) ->
  (is_finite (2 * np_pi * (half - abs xi)) = true \/
   (abs xi <=? half) = false ->
   in_unit (current_at libm_sin half xi) = true) /\
  ((abs xi <=? half) = true ->
   is_finite (2 * np_pi * (half - abs xi)) = false ->
   is_nan (current_at libm_sin half xi) = true).
Proof.
  intros Hrange. unfold current_at, np_sin.
  destruct (abs xi <=? half); destruct (is_finite _) eqn:F; split;
    intros; try reflexivity; try (apply Hrange, F);
    try discriminate; intuition discriminate.
Qed.

Lemma current_at_nonpositive (libm_sin : float -> float) (L xi : float) :
  (libm_sin 0 =? 0) = true /\ (libm_sin (- 0) =? 0) = true ->
  (L <=? 0) = true -> (current_at libm_sin (L / 2) xi =? 0) = true.
Proof.
  intros Hzero HL. unfold current_at.
  destruct (abs xi <=? L / 2) eqn:E; [|reflexivity].
  unfold np_sin.
  destruct (inside_nonpositive L xi HL E) as [-> | ->].
  - change (is_finite 0) with true. apply Hzero.
  - change (is_finite (- 0)) with true. apply Hzero.
Qed.
End ProfileRange.

Section ProfileRangeClaim.

(** C10, as the code has it.  Over the reals every element of the output
    lies in [[-1, 1]], and the output is all-zero for
    [length_multiplier <= 0].  Over binary64, with a sine that stays in
    [[-1, 1]] on finite arguments and maps zeros to zeros: an element lies in
    [[-1, 1]] when its position is outside the antenna or the argument
    [2 pi (half - |x|)] of the sine is finite, and is NaN when the position is
    inside and that argument is not finite; the output is all-zero for
    [length_multiplier <= 0]. *)
Theorem current_distribution_range :
  (forall (positions : list R) (length_multiplier : R),
   exists I,
     Ideal.current_distribution positions length_multiplier = Ok I /\
     Forall Ideal.in_unit I /\
     ((length_multiplier <= 0)%R -> Forall (fun y => y = 0%R) I)) /\
  (forall (libm_sin : float -> float)
          (positions : list float) (length_multiplier : float),
   (forall y, is_finite y = true -> F64.in_unit (libm_sin y) = true) ->
   (libm_sin 0 =? 0)%float = true /\ (libm_sin (- 0) =? 0)%float = true ->
   exists I,
     F64.current_distribution libm_sin positions length_multiplier = Ok I /\
     (forall i xi y,
        nth_error positions i = Some xi -> nth_error I i = Some y ->
        (is_finite (2 * F64.np_pi * (length_multiplier / 2 - abs xi))%float
         = true \/ (abs xi <=? length_multiplier / 2)%float = false ->
         F64.in_unit y = true) /\
        ((abs xi <=? length_multiplier / 2)%float = true ->
         is_finite (2 * F64.np_pi * (length_multiplier / 2 - abs xi))%float
         = false ->
         is_nan y = true)) /\
     ((length_multiplier <=? 0)%float = true ->
      Forall (fun y => (y =? 0)%float = true) I)).
Proof.
  split.
  - intros positions L. eexists.
    split; [apply ideal_current_distribution_map|]. split.
    + apply Forall_forall. intros y Hy. apply in_map_iff in Hy.
      destruct Hy as (xi & <- & _). apply current_at_bounds.
    + intros HL. apply Forall_forall. intros y Hy. apply in_map_iff in Hy.
      destruct Hy as (xi & <- & _). apply ideal_current_at_nonpositive, HL.
  - intros libm_sin positions L Hrange Hzero. eexists.
    split; [apply current_distribution_map|]. split.
    + intros i xi y Hxi Hy. rewrite nth_error_map, Hxi in Hy.
      simpl in Hy. injection Hy as <-.
      exact (current_at_range libm_sin (L / 2)%float xi Hrange).
    + intros HL. apply Forall_forall. intros y Hy. apply in_map_iff in Hy.
      destruct Hy as (xi & <- & _).
      apply (current_at_nonpositive libm_sin L xi Hzero HL).
Qed.

(** The hypotheses of C10 on the sine are met by the constant 0. *)
Lemma current_distribution_range_witness :
  exists I,
    F64.current_distribution (fun _ => 0%float) [0; 0.1; 2]%float 0.5%float
    = Ok I /\
    (forall i xi y,
       nth_error [0; 0.1; 2]%float i = Some xi -> nth_error I i = Some y ->
       (is_finite (2 * F64.np_pi * (0.5 / 2 - abs xi))%float = true \/
        (abs xi <=? 0.5 / 2)%float = false ->
        F64.in_unit y = true) /\
       ((abs xi <=? 0.5 / 2)%float = true ->
        is_finite (2 * F64.np_pi * (0.5 / 2 - abs xi))%float = false ->
        is_nan y = true)) /\
    ((0.5 <=? 0)%float = true ->
     Forall (fun y => (y =? 0)%float = true) I).
Proof.
  apply (proj2 current_distribution_range (fun _ => 0%float)).
  - intros y _. reflexivity.
  - split; reflexivity.
Defined.
End ProfileRangeClaim.

(** ** The callbacks *)

Section Callbacks.
Import F64 Gui.
Local Open Scope float_scope.
Variable libm_sin : float -> float.
Variable py_float : string -> option float.
Variable py_str : float -> string.
Variable py_strip : string -> string.
Variable x : list float.
Variable coerce : float -> float -> float -> float -> float.

Local Abbreviation read_freq := (Gui.read_freq py_float py_strip).
Local Abbreviation update := (Gui.update libm_sin py_float py_strip x).
Local Abbreviation reset := (Gui.reset libm_sin py_float py_str py_strip x).
Local Abbreviation handle :=
  (Gui.handle libm_sin py_float py_str py_strip x coerce).
Local Abbreviation run := (Gui.run libm_sin py_float py_str py_strip x coerce).
Local Abbreviation start :=
  (Gui.start libm_sin py_float py_str py_strip x coerce).

Lemma read_freq_cases (u : State) :
  (py_float (py_strip (tb_freq u)) = None /\ read_freq u = freq0) \/
  (exists f, py_float (py_strip (tb_freq u)) = Some f /\
             (f <=? 0) = true /\ read_freq u = freq0) \/
  (exists f, py_float (py_strip (tb_freq u)) = Some f /\
             (f <=? 0) = false /\ read_freq u = f).
Proof.
  unfold Gui.read_freq.
  destruct (py_float (py_strip (tb_freq u))) as [f|]; [|left; auto].
  right. destruct (f <=? 0) eqn:E; [left|right]; exists f; auto.
Qed.

Lemma read_freq_not_le_0 (u : State) : (read_freq u <=? 0) = false.
Proof.
  destruct (read_freq_cases u)
    as [[_ ->]|[(f & _ & _ & ->)|(f & _ & E & ->)]];
    [reflexivity|reflexivity|exact E].
Qed.

(** [update] never raises; what it leaves in the state. *)
Lemma update_returns (u : State) :
  update u
  = Ok {| tb_freq := tb_freq u; s_vf := s_vf u; s_mult := s_mult u;
          ydata := map (current_at libm_sin (val (s_mult u) / 2)) x;
          status :=
            Some {| shown_freq := read_freq u;
                    shown_lam := C / (read_freq u * 1e6);
                    shown_total :=
                      val (s_mult u) * (C / (read_freq u * 1e6))
                      * val (s_vf u);
                    shown_mult := val (s_mult u);
                    shown_vf := val (s_vf u);
                    shown_arm :=
                      val (s_mult u) * (C / (read_freq u * 1e6))
                      * val (s_vf u) / 2 |} |}.
Proof.
  unfold Gui.update, lengths.
  rewrite current_distribution_map.
  rewrite (wavelength_m_returns _ (read_freq_not_le_0 u)). reflexivity.
Qed.

(** C7: whatever the state before (in particular whatever frequency was
    shown last), submitting a frequency text ends without an exception;
    the frequency used is the default [freq0 = 100.0] when the text is not
    numeric ([float] raises) and when it parses to zero or to a negative
    number, and is the parsed value itself when that is greater than zero.
    The wavelength shown is the one computed from the frequency used. *)
Theorem update_frequency_fallback (u : State) (text : string) :
  exists u' shown,
    handle (Submit text) u = Ok u' /\ status u' = Some shown /\
    wavelength_m (shown_freq shown) = Ok (shown_lam shown) /\
    (py_float (py_strip text) = None -> shown_freq shown = 100.0) /\
    (forall f, py_float (py_strip text) = Some f ->
       (f =? 0) = true \/ (f <? 0) = true -> shown_freq shown = 100.0) /\
    (forall f, py_float (py_strip text) = Some f ->
       (0 <? f) = true -> shown_freq shown = f).
Proof.
  simpl handle. unfold submit_freq. rewrite update_returns.
  eexists _, _. split; [reflexivity|]. split; [reflexivity|]. simpl.
  split; [apply wavelength_m_returns, read_freq_not_le_0|].
  unfold Gui.read_freq. simpl tb_freq.
  split; [|split].
  - intros ->. reflexivity.
  - intros f -> H. rewrite (eqb_or_ltb_leb _ _ H). reflexivity.
  - intros f -> H. rewrite (ltb_not_leb _ _ H). reflexivity.
Qed.

(** A text that [float] reads as NaN is neither rejected nor [<= 0]: the NaN
    itself is used, and the wavelength shown is NaN. *)
Remark nan_frequency_is_used (u : State) (text : string) :
  py_float (py_strip text) = Some nan ->
  exists u' shown,
    handle (Submit text) u = Ok u' /\ status u' = Some shown /\
    shown_freq shown = nan /\ shown_lam shown = nan.
Proof.
  intros Hnan. simpl handle. unfold submit_freq. rewrite update_returns.
  eexists _, _. split; [reflexivity|]. split; [reflexivity|]. simpl.
  unfold Gui.read_freq. simpl tb_freq. rewrite Hnan. split; reflexivity.
Qed.

(** The fallback does not remember: after a valid frequency was used, an
    invalid text brings back [freq0], not that frequency. *)
Remark fallback_ignores_last_valid (u : State) (good bad : string) (f : float) :
  py_float (py_strip good) = Some f -> (0 <? f) = true ->
  py_float (py_strip bad) = None ->
  exists u1 u2 shown1 shown2,
    handle (Submit good) u = Ok u1 /\ status u1 = Some shown1 /\
    shown_freq shown1 = f /\
    handle (Submit bad) u1 = Ok u2 /\ status u2 = Some shown2 /\
    shown_freq shown2 = freq0.
Proof.
  intros Hgood Hf Hbad. simpl handle. unfold submit_freq.
  rewrite !update_returns. eexists _, _, _, _.
  split; [reflexivity|]. split; [reflexivity|]. split.
  - simpl. unfold Gui.read_freq. simpl tb_freq.
    rewrite Hgood, (ltb_not_leb _ _ Hf). reflexivity.
  - rewrite update_returns.
    split; [reflexivity|]. split; [reflexivity|].
    simpl. unfold Gui.read_freq. simpl tb_freq. rewrite Hbad. reflexivity.
Qed.

Lemma tb_set_val_returns (t : string) (u : State) :
  exists u1,
    Gui.tb_set_val libm_sin py_float py_strip x t u = Ok u1 /\
    tb_freq u1 = t /\ s_vf u1 = s_vf u /\ s_mult u1 = s_mult u.
Proof.
  unfold Gui.tb_set_val, submit_freq.
  destruct (String.eqb (tb_freq u) t) eqn:E.
  - apply String.eqb_eq in E. exists u. auto.
  - rewrite update_returns. eexists. split; [reflexivity|]. auto.
Qed.

End Callbacks.

(** ** The callbacks on examples *)

Section Examples.
Import F64 Gui.
Local Open Scope float_scope.
Local Open Scope string_scope.

(** C7 from a state that shows 27 MHz: a text that is not numeric and a
    negative value bring back 100.0, not 27; a positive value is used. *)
Lemma update_frequency_fallback_witness :
  (exists u' shown,
     Demo.handle (Submit "abc") Demo.showing_27 = Ok u' /\
     status u' = Some shown /\ shown_freq shown = 100.0) /\
  (exists u' shown,
     Demo.handle (Submit "-5") Demo.showing_27 = Ok u' /\
     status u' = Some shown /\ shown_freq shown = 100.0) /\
  (exists u' shown,
     Demo.handle (Submit "27") Demo.showing_27 = Ok u' /\
     status u' = Some shown /\ shown_freq shown = 27).
Proof.
  set (u := Demo.showing_27). unfold Demo.handle. split; [|split].
  - destruct (update_frequency_fallback Demo.libm_sin Demo.py_float
                Demo.py_str Demo.py_strip Demo.x Demo.coerce u "abc")
      as (u' & shown & H1 & H2 & _ & H4 & _).
    exists u', shown. split; [exact H1|]. split; [exact H2|].
    apply H4. reflexivity.
  - destruct (update_frequency_fallback Demo.libm_sin Demo.py_float
                Demo.py_str Demo.py_strip Demo.x Demo.coerce u "-5")
      as (u' & shown & H1 & H2 & _ & _ & H5 & _).
    exists u', shown. split; [exact H1|]. split; [exact H2|].
    apply (H5 (-5)); [reflexivity|right; reflexivity].
  - destruct (update_frequency_fallback Demo.libm_sin Demo.py_float
                Demo.py_str Demo.py_strip Demo.x Demo.coerce u "27")
      as (u' & shown & H1 & H2 & _ & _ & _ & H6).
    exists u', shown. split; [exact H1|]. split; [exact H2|].
    apply (H6 27); reflexivity.
Defined.

(** The session of the example, run with sliders that keep the value they
    are given: after the three changes the status shows 27 MHz, and after
    [reset] it shows the defaults again. *)
Example session_then_reset :
  (exists u, Demo.session [Submit "27"; Move_vf 0.9; Move_mult 1.25] = Ok u /\
     option_map shown_freq (status u) = Some 27 /\
     option_map shown_vf (status u) = Some 0.9 /\
     option_map shown_mult (status u) = Some 1.25) /\
  (exists u u',
     Demo.session [Submit "27"; Move_vf 0.9; Move_mult 1.25] = Ok u /\
     Demo.reset u = Ok u' /\
     option_map shown_lam (status u') = Some 2.9979245799999998 /\
     option_map shown_total (status u') = Some 1.4240141754999998 /\
     option_map shown_arm (status u') = Some 0.71200708774999988).
Proof.
  split.
  - eexists. split; [vm_compute; reflexivity|]. repeat split.
  - eexists _, _. split; [vm_compute; reflexivity|].
    split; [vm_compute; reflexivity|]. repeat split.
Qed.
End Examples.

(** * Further properties of the code *)

(** ** Division by zero in [wavelength_m] and [lengths] *)

Section ZeroDivision.
Import F64.
Local Open Scope float_scope.

(** The product of a finite non-zero number of either sign with a positive
    normal number. *)
Lemma SFmul_normal_spec (s : bool) (mx my : positive) (ex ey : Z) :
  Zdigits2 (Zpos my) = 53%Z ->
  (-1073 < mag mx ex + mag my ey)%Z ->
  exists (m' : positive) (e' : Z),
    SFmul prec emax (S754_finite s mx ex) (S754_finite false my ey)
    = if (e' <=? emax - prec)%Z then S754_finite s m' e'
      else S754_infinity s.
Proof.
  unfold mag. intros Hy Hm. simpl SFmul. rewrite xorb_false_r.
  pose proof (Z.log2_mul_below (Zpos mx) (Zpos my)) as Hlo.
  pose proof (Z.log2_nonneg (Zpos mx)) as Hx.
  rewrite (Zdigits2_log2 (Zpos mx)), (Zdigits2_log2 (Zpos my)) in * by lia.
  destruct (binary_round_aux_spec s (Zpos (mx * my)) (ex + ey) loc_Exact)
    as (m' & e' & _ & _ & Heq).
  - lia.
  - rewrite Zdigits2_log2, Pos2Z.inj_mul by lia. lia.
  - rewrite Zdigits2_log2, Pos2Z.inj_mul, fexp64 by lia. lia.
  - exists m', e'. exact Heq.
Qed.

(** [freq_mhz * 1e6] is zero only for a zero [freq_mhz]: the product of a
    non-zero number with [1e6] does not underflow. *)
Lemma scaled_frequency_zero (freq_mhz : float) :
  (freq_mhz * 1e6 =? 0) = (freq_mhz =? 0).
Proof.
  rewrite !eqb_spec, mul_spec.
  change (Prim2SF 0) with (S754_zero false).
  change (Prim2SF 1e6) with (S754_finite false 8589934592000000 (-33)).
  pose proof (Prim2SF_valid freq_mhz) as Hb.
  destruct (Prim2SF freq_mhz) as [[|]|[|]| |s m e]; try reflexivity.
  simpl in Hb. apply bounded_mag in Hb. destruct Hb as [Hc He].
  rewrite fexp64 in Hc.
  assert (Hd : (1 <= Zdigits2 (Zpos m))%Z) by (simpl; lia).
  destruct (SFmul_normal_spec s m 8589934592000000 e (-33))
    as (m' & e' & Heq).
  - reflexivity.
  - change (mag 8589934592000000 (-33)) with 20%Z. unfold mag in *. lia.
  - unfold SF64mul. rewrite Heq.
    destruct (e' <=? emax - prec)%Z, s; reflexivity.
Qed.

(** X1: [wavelength_m] raises [ZeroDivisionError] exactly when the frequency is
    zero (of either sign); for every other argument, negative, infinite or
    NaN, it returns the quotient. *)
Theorem wavelength_m_zero_division (freq_mhz : float) :
  wavelength_m freq_mhz
  = if freq_mhz =? 0 then Raise ZeroDivisionError
    else Ok (299792458 / (freq_mhz * 1e6)).
Proof.
  unfold wavelength_m, truediv. rewrite scaled_frequency_zero. reflexivity.
Qed.

(** X2: [lengths] raises exactly when the frequency is zero, whatever the
    velocity factor and the multiplier; otherwise it returns, and the arm is
    half the total. *)
Theorem lengths_zero_division (freq_mhz vf mult : float) :
  lengths freq_mhz vf mult
  = if freq_mhz =? 0 then Raise ZeroDivisionError
    else Ok (299792458 / (freq_mhz * 1e6),
             mult * (299792458 / (freq_mhz * 1e6)) * vf,
             mult * (299792458 / (freq_mhz * 1e6)) * vf / 2).
Proof.
  unfold lengths. rewrite wavelength_m_zero_division.
  destruct (freq_mhz =? 0); reflexivity.
Qed.
End ZeroDivision.

(** ** A negative frequency in [wavelength_m] *)

Section NegativeFrequency.
Import F64.
Local Open Scope float_scope.

Lemma negative_cases (a : float) :
  (a <? 0) = true ->
  Prim2SF a = S754_infinity true \/
  exists m e, Prim2SF a = S754_finite true m e /\
              SpecFloat.bounded prec emax m e = true.
Proof.
  rewrite ltb_spec. change (Prim2SF 0) with (S754_zero false).
  pose proof (Prim2SF_valid a) as Hv.
  destruct (Prim2SF a) as [s|s| |s m e]; unfold SFltb; simpl;
    try discriminate; destruct s; try discriminate; intros _.
  - left; reflexivity.
  - right. exists m, e. split; [reflexivity|exact Hv].
Qed.

(** The quotient of a positive number by a finite non-zero number has the
    sign of the divisor and is not zero. *)
Lemma SFdiv_sign_spec (s : bool) (mx my : positive) (ex ey : Z) :
  (-1074 < mag mx ex - mag my ey)%Z ->
  exists (m' : positive) (e' : Z),
    SFdiv prec emax (S754_finite false mx ex) (S754_finite s my ey)
    = if (e' <=? emax - prec)%Z then S754_finite s m' e'
      else S754_infinity s.
Proof.
  unfold mag. intros HD. simpl SFdiv.
  destruct (SFdiv_core_binary_spec mx my ex ey HD)
    as (q & e0 & l & Hcore & Hq & Hmq & He0).
  rewrite Hcore.
  destruct (binary_round_aux_spec s q e0 l Hq)
    as (m' & e' & _ & _ & Heq).
  - lia.
  - rewrite fexp64 in *. lia.
  - exists m', e'. exact Heq.
Qed.

Lemma scaled_negative_frequency (freq_mhz : float) :
  (freq_mhz <? 0) = true -> (freq_mhz * 1e6 <? 0) = true.
Proof.
  intros Hneg. rewrite ltb_spec, mul_spec.
  change (Prim2SF 0) with (S754_zero false).
  change (Prim2SF 1e6) with (S754_finite false 8589934592000000 (-33)).
  destruct (negative_cases _ Hneg) as [->|(m & e & -> & Hb)];
    [reflexivity|].
  apply bounded_mag in Hb. destruct Hb as [Hc He]. rewrite fexp64 in Hc.
  assert (Hd : (1 <= Zdigits2 (Zpos m))%Z) by (simpl; lia).
  destruct (SFmul_normal_spec true m 8589934592000000 e (-33))
    as (m' & e' & Heq).
  - reflexivity.
  - change (mag 8589934592000000 (-33)) with 20%Z. unfold mag in *. lia.
  - unfold SF64mul. rewrite Heq. destruct (e' <=? emax - prec)%Z; reflexivity.
Qed.

(** X3: [wavelength_m] does not validate its argument: for a negative frequency
    it returns, and the wavelength is zero or negative, never NaN; it is
    negative exactly when [freq_mhz * 1e6] does not overflow. *)
Theorem wavelength_m_negative_frequency (freq_mhz : float) :
  (freq_mhz <? 0) = true ->
  wavelength_m freq_mhz = Ok (299792458 / (freq_mhz * 1e6)) /\
  (299792458 / (freq_mhz * 1e6) <=? 0) = true /\
  (299792458 / (freq_mhz * 1e6) <? 0) = is_finite (freq_mhz * 1e6).
Proof.
  intros Hneg. split.
  - rewrite wavelength_m_zero_division.
    replace (freq_mhz =? 0) with false; [reflexivity|].
    revert Hneg. rewrite ltb_spec, eqb_spec. unfold SFltb, SFeqb.
    destruct (SFcompare _ _) as [[| |]|]; intros H;
      try discriminate H; reflexivity.
  - pose proof (scaled_negative_frequency _ Hneg) as Hp.
    rewrite leb_spec, ltb_spec, div_spec, is_finite_SF.
    change (Prim2SF 0) with (S754_zero false).
    change (Prim2SF 299792458)
      with (S754_finite false 5029682823036928 (-24)).
    destruct (negative_cases _ Hp) as [->|(m & e & -> & Hb)];
      [split; reflexivity|].
    apply bounded_mag in Hb. destruct Hb as [Hc He]. rewrite fexp64 in Hc.
    destruct (SFdiv_sign_spec true 5029682823036928 m (-24) e)
      as (m' & e' & Heq).
    + change (mag 5029682823036928 (-24)) with 29%Z. unfold mag in *. lia.
    + unfold SF64div. rewrite Heq.
      destruct (e' <=? emax - prec)%Z; split; reflexivity.
Qed.

(** -100 MHz gives the wavelength of 100 MHz with the sign reversed. *)
Lemma wavelength_m_negative_frequency_witness :
  ((-100) <? 0) = true /\
  wavelength_m (-100) = Ok (-2.9979245799999998) /\
  ((-2.9979245799999998) <=? 0) = true.
Proof.
  destruct (wavelength_m_negative_frequency (-100) eq_refl)
    as (Hret & Hle & _).
  split; [reflexivity|]. split; [exact Hret|exact Hle].
Defined.
End NegativeFrequency.

(** ** What the callbacks keep *)

Section FloatEqualityGeneral.
Local Open Scope float_scope.

(** Float equality with anything but a zero is equality of values. *)
Lemma eqb_nonzero_eq (v c : float) :
  (v =? c) = true -> (c =? 0) = false -> v = c.
Proof.
  intros H Hc. apply Prim2SF_inj. rewrite eqb_spec in H, Hc.
  change (Prim2SF 0) with (S754_zero false) in Hc.
  unfold SFeqb in H, Hc.
  destruct (Prim2SF c) as [sc|sc| |sc mc ec];
    destruct (Prim2SF v) as [sv|sv| |sv mv ev]; simpl in H, Hc;
    try discriminate H; try discriminate Hc;
    try (destruct sv; discriminate H); try (destruct sc; discriminate H).
  - destruct sv, sc; try discriminate H; reflexivity.
  - destruct sv, sc; try discriminate H;
      destruct (Z.compare_spec ev ec) as [E|E|E]; try discriminate H;
      subst ev;
      destruct (Pos.compare_cont Eq mv mc) eqn:Em; try discriminate H;
      apply Pos.compare_eq in Em; subst mv; reflexivity.
Qed.
End FloatEqualityGeneral.

Section CallbackInvariants.
Import F64 Gui.
Local Open Scope float_scope.
Variable libm_sin : float -> float.
Variable py_float : string -> option float.
Variable py_str : float -> string.
Variable py_strip : string -> string.
Variable x : list float.
Variable coerce : float -> float -> float -> float -> float.

Local Abbreviation read_freq := (Gui.read_freq py_float py_strip).
Local Abbreviation update := (Gui.update libm_sin py_float py_strip x).
Local Abbreviation reset := (Gui.reset libm_sin py_float py_str py_strip x).
Local Abbreviation handle :=
  (Gui.handle libm_sin py_float py_str py_strip x coerce).
Local Abbreviation run := (Gui.run libm_sin py_float py_str py_strip x coerce).
Local Abbreviation start :=
  (Gui.start libm_sin py_float py_str py_strip x coerce).

(** [update] reads the text and the two slider values, nothing else. *)
Lemma update_ext (u v : State) :
  tb_freq u = tb_freq v -> val (s_vf u) = val (s_vf v) ->
  val (s_mult u) = val (s_mult v) -> s_vf u = s_vf v ->
  s_mult u = s_mult v -> update u = update v.
Proof.
  intros Ht Hv Hm Hs1 Hs2.
  rewrite !(update_returns libm_sin py_float py_strip x).
  unfold Gui.read_freq. rewrite Ht, Hv, Hm, Hs1, Hs2. reflexivity.
Qed.

Lemma update_frame (u : State) :
  exists u',
    update u = Ok u' /\ tb_freq u' = tb_freq u /\
    s_vf u' = s_vf u /\ s_mult u' = s_mult u /\ update u' = Ok u'.
Proof.
  rewrite (update_returns libm_sin py_float py_strip x u).
  eexists. split; [reflexivity|]. repeat split.
  rewrite (update_returns libm_sin py_float py_strip x). reflexivity.
Qed.

Lemma set_val_set_val (a b : float) (s : Slider) :
  set_val a (set_val b s) = set_val a s.
Proof. reflexivity. Qed.

Lemma set_val_val (s : Slider) : set_val (val s) s = s.
Proof. destruct s; reflexivity. Qed.

(** A callback returns; it changes at most the value of the sliders, and it
    leaves the display up to date when it found it so. *)
Lemma handle_step (e : event) (u : State) :
  exists u',
    handle e u = Ok u' /\
    set_val (val (s_vf u')) (s_vf u) = s_vf u' /\
    set_val (val (s_mult u')) (s_mult u) = s_mult u' /\
    (update u = Ok u -> update u' = Ok u').
Proof.
  assert (Hup : forall v : State,
             exists u', update v = Ok u' /\
               set_val (val (s_vf u')) (s_vf v) = s_vf u' /\
               set_val (val (s_mult u')) (s_mult v) = s_mult u' /\
               update u' = Ok u').
  { intros v. destruct (update_frame v) as (u' & Hu & _ & Hs1 & Hs2 & F).
    exists u'. rewrite Hs1, Hs2, !set_val_val. auto. }
  destruct e as [t|pos|pos|]; simpl.
  - unfold submit_freq.
    destruct (Hup (with_text t u)) as (u' & Hu & Hs1 & Hs2 & F).
    exists u'. auto.
  - unfold drag_vf, s_vf_set_val.
    destruct (_ =? val (s_vf u)).
    + exists u. rewrite !set_val_val. auto.
    + match goal with |- context [update ?v] =>
        destruct (Hup v) as (u' & Hu & Hs1 & Hs2 & F) end.
      exists u'. simpl in Hs1, Hs2. auto.
  - unfold drag_mult, s_mult_set_val.
    destruct (_ =? val (s_mult u)).
    + exists u. rewrite !set_val_val. auto.
    + match goal with |- context [update ?v] =>
        destruct (Hup v) as (u' & Hu & Hs1 & Hs2 & F) end.
      exists u'. simpl in Hs1, Hs2. auto.
  - unfold Gui.reset.
    destruct (tb_set_val_returns libm_sin py_float py_strip x
                (py_str freq0) u) as (u1 & -> & _ & E1 & E1'). simpl.
    assert (H2 : exists u2,
               Gui.s_vf_reset libm_sin py_float py_strip x u1 = Ok u2 /\
               set_val (val (s_vf u2)) (s_vf u1) = s_vf u2 /\
               set_val (val (s_mult u2)) (s_mult u1) = s_mult u2).
    { unfold Gui.s_vf_reset, s_vf_set_val.
      destruct (val (s_vf u1) =? valinit (s_vf u1)).
      - exists u1. rewrite !set_val_val. auto.
      - match goal with |- context [update ?v] =>
          destruct (Hup v) as (u2 & Hu & Hs1 & Hs2 & _) end.
        exists u2. simpl in Hs1, Hs2. auto. }
    destruct H2 as (u2 & -> & E2 & E2'). simpl.
    assert (H3 : exists u3,
               Gui.s_mult_reset libm_sin py_float py_strip x u2 = Ok u3 /\
               set_val (val (s_vf u3)) (s_vf u2) = s_vf u3 /\
               set_val (val (s_mult u3)) (s_mult u2) = s_mult u3).
    { unfold Gui.s_mult_reset, s_mult_set_val.
      destruct (val (s_mult u2) =? valinit (s_mult u2)).
      - exists u2. rewrite !set_val_val. auto.
      - match goal with |- context [update ?v] =>
          destruct (Hup v) as (u3 & Hu & Hs1 & Hs2 & _) end.
        exists u3. simpl in Hs1, Hs2. auto. }
    destruct H3 as (u3 & -> & E3 & E3'). simpl.
    destruct (Hup u3) as (u' & -> & Hs1 & Hs2 & F).
    exists u'. split; [reflexivity|].
    rewrite <- Hs1, <- Hs2, <- E3, <- E3', <- E2, <- E2', E1, E1'.
    rewrite !set_val_set_val. auto.
Qed.

Lemma run_step (es : list event) : forall u : State,
  exists u',
    run es u = Ok u' /\
    set_val (val (s_vf u')) (s_vf u) = s_vf u' /\
    set_val (val (s_mult u')) (s_mult u) = s_mult u' /\
    (update u = Ok u -> update u' = Ok u').
Proof.
  induction es as [|e es IH]; intros u; simpl.
  - exists u. rewrite !set_val_val. auto.
  - destruct (handle_step e u) as (u1 & -> & V1 & M1 & F1). simpl.
    destruct (IH u1) as (u' & -> & V & M & F).
    exists u'. split; [reflexivity|].
    rewrite <- V, <- M, <- V1, <- M1, !set_val_set_val. auto.
Qed.

(** X4: neither the start-up of the script nor any sequence of callbacks (text
    submissions, slider drags, resets), run from any state, ends with an
    exception: the guard of [update] keeps a zero frequency away from the
    division, and the mask always fits the array. *)
Theorem callbacks_never_raise :
  (exists u0, start = Ok u0) /\
  (forall (es : list event) (u : State), exists u', run es u = Ok u').
Proof.
  split.
  - unfold Gui.start. rewrite current_distribution_map. simpl bind.
    rewrite (update_returns libm_sin py_float py_strip x). eauto.
  - intros es u. destruct (run_step es u) as (u' & H & _). eauto.
Qed.

(** X5: redrawing twice is redrawing once: [update] run on the state it left
    returns that state. *)
Theorem update_idempotent (u : State) :
  (u' <- update u ;; update u') = update u.
Proof.
  destruct (update_frame u) as (u' & -> & _ & _ & _ & F). exact F.
Qed.

(** X6: after the start-up and any sequence of callbacks the display is up to
    date: the status shows the frequency read from the text box and the
    current slider values, the lengths shown are those [lengths] computes
    from them, and the curve is [current_distribution] at the current
    multiplier.  A further [update] would change nothing. *)
Theorem display_up_to_date (es : list event) :
  exists u shown,
    (u0 <- start ;; run es u0) = Ok u /\
    update u = Ok u /\
    status u = Some shown /\
    shown_freq shown = read_freq u /\
    shown_vf shown = val (s_vf u) /\
    shown_mult shown = val (s_mult u) /\
    lengths (read_freq u) (val (s_vf u)) (val (s_mult u))
    = Ok (shown_lam shown, shown_total shown, shown_arm shown) /\
    current_distribution libm_sin x (val (s_mult u)) = Ok (ydata u).
Proof.
  unfold Gui.start. rewrite current_distribution_map. simpl bind.
  match goal with |- context [update ?v] =>
    destruct (update_frame v) as (u0 & -> & _ & _ & _ & F0) end.
  simpl bind.
  destruct (run_step es u0) as (u & -> & _ & _ & F).
  specialize (F F0). pose proof F as F'.
  rewrite (update_returns libm_sin py_float py_strip x) in F'.
  injection F' as F'.
  eexists u, _. split; [reflexivity|]. split; [exact F|].
  rewrite <- F' at 1. simpl status. split; [reflexivity|]. simpl.
  repeat split.
  - unfold lengths.
    rewrite (wavelength_m_returns _
               (read_freq_not_le_0 py_float py_strip u)). reflexivity.
  - rewrite current_distribution_map. rewrite <- F' at 2. reflexivity.
Qed.

(** A slider that differs from a freshly built one only in its value is
    that slider again once its value is its initial value. *)
Lemma slider_back (s S : Slider) :
  set_val (val s) S = s -> val S = valinit S -> val s = valinit s -> s = S.
Proof.
  intros <- HS. destruct S as [a b c d v]. simpl in *. intros ->.
  rewrite HS. reflexivity.
Qed.

Lemma s_vf_reset_back (u : State) (S : Slider) :
  set_val (val (s_vf u)) S = s_vf u -> val S = valinit S ->
  (valinit S =? 0) = false ->
  exists u2,
    Gui.s_vf_reset libm_sin py_float py_strip x u = Ok u2 /\
    tb_freq u2 = tb_freq u /\ s_vf u2 = S /\ s_mult u2 = s_mult u.
Proof.
  intros HS Hfresh Hnz. unfold Gui.s_vf_reset, s_vf_set_val.
  assert (Hinit : valinit (s_vf u) = valinit S) by (rewrite <- HS; reflexivity).
  destruct (val (s_vf u) =? valinit (s_vf u)) eqn:E.
  - exists u. repeat split.
    apply (slider_back _ _ HS Hfresh).
    apply eqb_nonzero_eq; [exact E|rewrite Hinit; exact Hnz].
  - destruct (update_frame (with_vf (set_val (valinit (s_vf u)) (s_vf u)) u))
      as (u2 & -> & Ht & Hs1 & Hs2 & _).
    exists u2. split; [reflexivity|]. simpl in Ht, Hs1, Hs2.
    split; [exact Ht|]. split; [|exact Hs2].
    rewrite Hs1, Hinit, <- HS, set_val_set_val.
    destruct S; simpl in *. rewrite Hfresh. reflexivity.
Qed.

Lemma s_mult_reset_back (u : State) (S : Slider) :
  set_val (val (s_mult u)) S = s_mult u -> val S = valinit S ->
  (valinit S =? 0) = false ->
  exists u3,
    Gui.s_mult_reset libm_sin py_float py_strip x u = Ok u3 /\
    tb_freq u3 = tb_freq u /\ s_mult u3 = S /\ s_vf u3 = s_vf u.
Proof.
  intros HS Hfresh Hnz. unfold Gui.s_mult_reset, s_mult_set_val.
  assert (Hinit : valinit (s_mult u) = valinit S)
    by (rewrite <- HS; reflexivity).
  destruct (val (s_mult u) =? valinit (s_mult u)) eqn:E.
  - exists u. repeat split.
    apply (slider_back _ _ HS Hfresh).
    apply eqb_nonzero_eq; [exact E|rewrite Hinit; exact Hnz].
  - destruct (update_frame
                (with_mult (set_val (valinit (s_mult u)) (s_mult u)) u))
      as (u3 & -> & Ht & Hs1 & Hs2 & _).
    exists u3. split; [reflexivity|]. simpl in Ht, Hs1, Hs2.
    split; [exact Ht|]. split; [|exact Hs1].
    rewrite Hs2, Hinit, <- HS, set_val_set_val.
    destruct S; simpl in *. rewrite Hfresh. reflexivity.
Qed.

(** X7: [reset] is a restart: after the start-up and any sequence of callbacks,
    [reset] leaves exactly the state the start-up left (text, sliders, curve
    and status), provided the initial values the two sliders stored are not
    zero (for a zero, [Slider.reset] would keep a zero of the other sign). *)
Theorem reset_is_restart (es : list event) :
  (coerce 0.80 1.00 0.005 vf0 =? 0) = false ->
  (coerce 0.25 2.0 0.01 mult0 =? 0) = false ->
  exists u,
    (u0 <- start ;; run es u0) = Ok u /\ reset u = start.
Proof.
  intros Hvf Hmult.
  unfold Gui.start. rewrite current_distribution_map. simpl bind.
  set (S1 := new_slider coerce 0.80 1.00 vf0 0.005) in *.
  set (S2 := new_slider coerce 0.25 2.0 mult0 0.01) in *.
  match goal with |- context [update ?v] => set (init := v) end.
  destruct (update_frame init) as (u0 & E0 & _ & V0 & M0 & _).
  rewrite E0. simpl bind.
  destruct (run_step es u0) as (u & -> & V & M & _).
  exists u. split; [reflexivity|].
  rewrite V0 in V. rewrite M0 in M. simpl in V, M.
  unfold Gui.reset.
  destruct (tb_set_val_returns libm_sin py_float py_strip x
              (py_str freq0) u) as (u1 & -> & T1 & E1 & E1'). simpl.
  destruct (s_vf_reset_back u1 S1) as (u2 & -> & T2 & E2 & E2');
    [rewrite E1; exact V|reflexivity|exact Hvf|]. simpl.
  destruct (s_mult_reset_back u2 S2) as (u3 & -> & T3 & E3 & E3');
    [rewrite E2', E1'; exact M|reflexivity|exact Hmult|]. simpl.
  rewrite <- E0. apply update_ext.
  - rewrite T3, T2, T1. reflexivity.
  - rewrite E3', E2. reflexivity.
  - rewrite E3. reflexivity.
  - rewrite E3', E2. reflexivity.
  - rewrite E3. reflexivity.
Qed.

(** What a state holds when the display is up to date. *)
Lemma up_to_date_fields (u : State) :
  update u = Ok u ->
  ydata u = map (current_at libm_sin (val (s_mult u) / 2)) x /\
  status u
  = Some {| shown_freq := read_freq u;
            shown_lam := C / (read_freq u * 1e6);
            shown_total :=
              val (s_mult u) * (C / (read_freq u * 1e6)) * val (s_vf u);
            shown_mult := val (s_mult u);
            shown_vf := val (s_vf u);
            shown_arm :=
              val (s_mult u) * (C / (read_freq u * 1e6)) * val (s_vf u)
              / 2 |}.
Proof.
  rewrite (update_returns libm_sin py_float py_strip x u).
  intros H. injection H as H. split.
  - apply (f_equal ydata) in H. symmetry. exact H.
  - apply (f_equal status) in H. symmetry. exact H.
Qed.

(** X8: each input reaches only what depends on it.  From a state whose display
    is up to date: submitting a frequency leaves the curve and both sliders
    as they are; moving the velocity-factor slider leaves the curve, the
    text, the length slider, and the frequency and wavelength shown; moving
    the length slider leaves the text, the velocity-factor slider, and the
    frequency, wavelength and velocity factor shown. *)
Theorem inputs_are_independent (u : State) :
  update u = Ok u ->
  (forall t, exists u',
     handle (Submit t) u = Ok u' /\ tb_freq u' = t /\
     ydata u' = ydata u /\ s_vf u' = s_vf u /\ s_mult u' = s_mult u) /\
  (forall pos, exists u',
     handle (Move_vf pos) u = Ok u' /\ tb_freq u' = tb_freq u /\
     ydata u' = ydata u /\ s_mult u' = s_mult u /\
     option_map shown_freq (status u') = option_map shown_freq (status u) /\
     option_map shown_lam (status u') = option_map shown_lam (status u)) /\
  (forall pos, exists u',
     handle (Move_mult pos) u = Ok u' /\ tb_freq u' = tb_freq u /\
     s_vf u' = s_vf u /\
     option_map shown_freq (status u') = option_map shown_freq (status u) /\
     option_map shown_lam (status u') = option_map shown_lam (status u) /\
     option_map shown_vf (status u') = option_map shown_vf (status u)).
Proof.
  intros F. destruct (up_to_date_fields u F) as [Hy Hs].
  split; [|split].
  - intros t. simpl handle. unfold submit_freq.
    rewrite (update_returns libm_sin py_float py_strip x).
    eexists. split; [reflexivity|]. simpl. rewrite Hy. auto.
  - intros pos. simpl handle. unfold drag_vf, s_vf_set_val.
    destruct (_ =? _); [exists u; auto 10|].
    rewrite (update_returns libm_sin py_float py_strip x).
    eexists. split; [reflexivity|]. simpl. rewrite Hy, Hs. auto 10.
  - intros pos. simpl handle. unfold drag_mult, s_mult_set_val.
    destruct (_ =? _); [exists u; auto 10|].
    rewrite (update_returns libm_sin py_float py_strip x).
    eexists. split; [reflexivity|]. simpl. rewrite Hs. auto 10.
Qed.

Lemma mul_nan_l (a b : float) : a * nan * b = nan.
Proof.
  apply Prim2SF_inj. rewrite !mul_spec.
  change (Prim2SF nan) with S754_nan.
  destruct (Prim2SF a), (Prim2SF b); reflexivity.
Qed.

(** X9: the guard [freq_mhz <= 0] lets through what is not a frequency.  A text
    that [float] reads as NaN is used as the frequency, and the wavelength
    and both lengths shown are NaN; a text read as [+inf] is used, and the
    wavelength shown is 0; a text read as [-inf] is replaced by [freq0]. *)
Theorem non_finite_frequency (u : State) (text : string) (f : float) :
  py_float (py_strip text) = Some f ->
  exists u' shown,
    handle (Submit text) u = Ok u' /\ status u' = Some shown /\
    (f = nan ->
     shown_freq shown = nan /\ shown_lam shown = nan /\
     shown_total shown = nan /\ shown_arm shown = nan) /\
    (f = infinity -> shown_freq shown = infinity /\ shown_lam shown = 0) /\
    (f = neg_infinity -> shown_freq shown = freq0).
Proof.
  intros Hf. simpl handle. unfold submit_freq.
  rewrite (update_returns libm_sin py_float py_strip x).
  eexists _, _. split; [reflexivity|]. split; [reflexivity|]. simpl.
  unfold Gui.read_freq. simpl tb_freq. rewrite Hf.
  split; [|split]; intros ->.
  - change (nan <=? 0) with false. cbv beta iota.
    change (C / (nan * 1e6)) with nan. rewrite mul_nan_l. auto.
  - split; reflexivity.
  - reflexivity.
Qed.

(** C8, as the code has it: after the start-up and any sequence of user
    actions (edits of the frequency, drags of the two sliders, earlier
    resets), [reset] returns and leaves exactly the outputs computed from
    the frequency 100.0 and the initial values the two sliders stored when
    they were built from 0.95 and 0.5: the wavelength, total length and arm
    length are those of [lengths] at these three values and the curve is
    [current_distribution] at the stored multiplier.  Assumed of the
    widgets: [float] reads back the text [str] writes for 100.0, and neither
    stored initial value is a zero.  Where the sliders store 0.95 and 0.5
    themselves, these are the outputs computed from the defaults. *)
Theorem reset_restores_stored_defaults (es : list event) :
  py_float (py_strip (py_str 100.0)) = Some 100.0 ->
  (coerce 0.80 1.00 0.005 0.95 =? 0) = false ->
  (coerce 0.25 2.0 0.01 0.5 =? 0) = false ->
  exists u u' shown,
    (u0 <- start ;; run es u0) = Ok u /\
    reset u = Ok u' /\ status u' = Some shown /\
    lengths 100.0 (coerce 0.80 1.00 0.005 0.95) (coerce 0.25 2.0 0.01 0.5)
    = Ok (shown_lam shown, shown_total shown, shown_arm shown) /\
    current_distribution libm_sin x (coerce 0.25 2.0 0.01 0.5)
    = Ok (ydata u') /\
    shown_freq shown = 100.0 /\
    shown_vf shown = coerce 0.80 1.00 0.005 0.95 /\
    shown_mult shown = coerce 0.25 2.0 0.01 0.5 /\
    (coerce 0.80 1.00 0.005 0.95 = 0.95 ->
     coerce 0.25 2.0 0.01 0.5 = 0.5 ->
     lengths 100.0 0.95 0.5
     = Ok (shown_lam shown, shown_total shown, shown_arm shown) /\
     current_distribution libm_sin x 0.5 = Ok (ydata u')).
Proof.
  intros Hparse Hvf Hmult.
  unfold Gui.start. rewrite current_distribution_map. simpl bind.
  set (S1 := new_slider coerce 0.80 1.00 vf0 0.005) in *.
  set (S2 := new_slider coerce 0.25 2.0 mult0 0.01) in *.
  match goal with |- context [update ?v] => set (init := v) end.
  destruct (update_frame init) as (u0 & E0 & _ & V0 & M0 & _).
  rewrite E0. simpl bind.
  destruct (run_step es u0) as (u & Hrun & V & M & _).
  rewrite V0 in V. rewrite M0 in M. simpl in V, M.
  assert (R : exists u3,
             reset u = update u3 /\ tb_freq u3 = py_str freq0 /\
             s_vf u3 = S1 /\ s_mult u3 = S2).
  { unfold Gui.reset.
    destruct (tb_set_val_returns libm_sin py_float py_strip x
                (py_str freq0) u) as (u1 & -> & T1 & E1 & E1'). simpl.
    destruct (s_vf_reset_back u1 S1) as (u2 & -> & T2 & E2 & E2');
      [rewrite E1; exact V|reflexivity|exact Hvf|]. simpl.
    destruct (s_mult_reset_back u2 S2) as (u3 & -> & T3 & E3 & E3');
      [rewrite E2', E1'; exact M|reflexivity|exact Hmult|]. simpl.
    exists u3. split; [reflexivity|]. rewrite T3, T2, T1, E3', E2. auto. }
  destruct R as (u3 & Hreset & T3 & V3 & M3).
  rewrite (update_returns libm_sin py_float py_strip x) in Hreset.
  assert (F : read_freq u3 = 100.0).
  { unfold Gui.read_freq. rewrite T3. unfold freq0. rewrite Hparse.
    reflexivity. }
  rewrite F, V3, M3 in Hreset.
  change (val S1) with (coerce 0.80 1.00 0.005 0.95) in Hreset.
  change (val S2) with (coerce 0.25 2.0 0.01 0.5) in Hreset.
  eexists u, _, _. split; [exact Hrun|]. split; [exact Hreset|].
  split; [reflexivity|]. cbn [shown_lam shown_total shown_arm ydata
                              shown_freq shown_vf shown_mult].
  assert (L : forall vf mult,
             lengths 100.0 vf mult
             = Ok (C / (100.0 * 1e6), mult * (C / (100.0 * 1e6)) * vf,
                   mult * (C / (100.0 * 1e6)) * vf / 2)).
  { intros vf mult. unfold lengths.
    rewrite (wavelength_m_returns 100.0 eq_refl). reflexivity. }
  split; [apply L|]. split; [apply current_distribution_map|].
  split; [reflexivity|]. split; [reflexivity|]. split; [reflexivity|].
  intros -> ->. split; [apply L|apply current_distribution_map].
Qed.
End CallbackInvariants.

(** ** Alignment and subtraction of binary64 values *)

Section Subtraction.
Local Open Scope Z_scope.

Lemma iter_xO_pow2 (m d : positive) :
  Zpos (Pos.iter xO m d) = Zpos m * 2 ^ Zpos d.
Proof.
  induction d as [|d IH] using Pos.peano_ind.
  - simpl. lia.
  - rewrite Pos.iter_succ, Pos2Z.inj_xO, IH, Pos2Z.inj_succ, Z.pow_succ_r
      by lia. lia.
Qed.

(** Aligning to a smaller exponent multiplies the mantissa by the power of
    two that keeps the value. *)
Lemma shl_align_spec (m : positive) (e e' : Z) :
  e' <= e ->
  Zpos (fst (shl_align m e e')) = Zpos m * 2 ^ (e - e') /\
  snd (shl_align m e e') = e'.
Proof.
  intros H. unfold shl_align.
  destruct (e' - e) as [|d|d] eqn:E; cbn [fst snd].
  - replace (e - e') with 0 by lia. rewrite Z.pow_0_r. split; lia.
  - lia.
  - replace (e - e') with (Zpos d) by lia. split; [apply iter_xO_pow2|lia].
Qed.

Lemma digits_shift (m : positive) (k : Z) :
  0 <= k -> Zdigits2 (Zpos m * 2 ^ k) = Zdigits2 (Zpos m) + k.
Proof.
  intros Hk. assert (0 < 2 ^ k) by (apply Z.pow_pos_nonneg; lia).
  rewrite !Zdigits2_log2 by nia. rewrite Z.log2_mul_pow2 by lia. lia.
Qed.

(** Rounding a positive integer mantissa at a given exponent. *)
Lemma binary_round_spec (s : bool) (m : positive) (e : Z) :
  -1074 < mag m e ->
  exists (m' : positive) (e' : Z),
    mag m e <= mag m' e' <= mag m e + 1 /\
    e' = fexp prec emax (mag m' e') /\
    binary_round prec emax s m e
    = if e' <=? emax - prec then S754_finite s m' e' else S754_infinity s.
Proof.
  unfold mag, binary_round. intros Hmag.
  change (Zpos (digits2_pos m)) with (Zdigits2 (Zpos m)).
  set (f := fexp prec emax (Zdigits2 (Zpos m) + e)).
  destruct (Z_le_gt_dec f e) as [Hf|Hf].
  - destruct (shl_align_spec m e f Hf) as [H1 H2].
    destruct (shl_align m e f) as [mz ez]. cbn [fst snd] in H1, H2.
    subst ez.
    assert (Hd : Zdigits2 (Zpos mz) + f = Zdigits2 (Zpos m) + e).
    { rewrite H1, digits_shift by lia. lia. }
    destruct (binary_round_aux_spec s (Zpos mz) f loc_Exact)
      as (m' & e' & Hm' & Hc & Heq); [lia|lia|rewrite Hd; subst f; lia|].
    exists m', e'. rewrite Hd in Hm'. auto.
  - assert (E : shl_align m e f = (m, e)).
    { unfold shl_align. destruct (f - e) eqn:E; try reflexivity. lia. }
    rewrite E.
    destruct (binary_round_aux_spec s (Zpos m) e loc_Exact)
      as (m' & e' & Hm' & Hc & Heq); [lia|lia|fold f; lia|].
    exists m', e'. auto.
Qed.

Lemma mantissa_below (m : positive) : Zpos m < 2 ^ Zdigits2 (Zpos m).
Proof.
  rewrite Zdigits2_log2 by lia.
  pose proof (Z.log2_spec (Zpos m)). lia.
Qed.

Lemma digits_below (d : positive) (n : Z) :
  Zpos d < 2 ^ n -> Zdigits2 (Zpos d) <= n.
Proof.
  intros H. rewrite Zdigits2_log2 by lia.
  destruct (Z_lt_le_dec n 0) as [Hn|Hn].
  - rewrite Z.pow_neg_r in H by lia. lia.
  - pose proof (proj1 (Z.log2_lt_pow2 (Zpos d) n ltac:(lia)) H). lia.
Qed.

(** The difference of two positive numbers of magnitude at most [K]: a
    zero, or a number of either sign of magnitude at most [K + 1]. *)
Lemma SFsub_pos_spec (mx my : positive) (ex ey K : Z) :
  -1074 <= ex -> -1074 <= ey ->
  mag mx ex <= K -> mag my ey <= K -> K <= 1023 ->
  SFsub prec emax (S754_finite false mx ex) (S754_finite false my ey)
  = S754_zero false \/
  exists s m' e',
    mag m' e' <= K + 1 /\
    SFsub prec emax (S754_finite false mx ex) (S754_finite false my ey)
    = S754_finite s m' e'.
Proof.
  unfold mag. intros Hex Hey Hx Hy HK. unfold SFsub, cond_Zopp.
  set (ez := Z.min ex ey).
  destruct (shl_align_spec mx ex ez) as [HA _]; [subst ez; lia|].
  destruct (shl_align_spec my ey ez) as [HB _]; [subst ez; lia|].
  set (A := Zpos (fst (shl_align mx ex ez))) in *.
  set (B := Zpos (fst (shl_align my ey ez))) in *.
  pose proof (mantissa_below mx) as Lx.
  pose proof (mantissa_below my) as Ly.
  assert (Hpx : 0 < 2 ^ (ex - ez)) by (apply Z.pow_pos_nonneg; lia).
  assert (Hpy : 0 < 2 ^ (ey - ez)) by (apply Z.pow_pos_nonneg; lia).
  assert (HAK : A < 2 ^ (K - ez)).
  { rewrite HA.
    apply Z.lt_le_trans with (2 ^ Zdigits2 (Zpos mx) * 2 ^ (ex - ez));
      [nia|].
    rewrite <- Z.pow_add_r by (simpl Zdigits2; lia).
    apply Z.pow_le_mono_r; lia. }
  assert (HBK : B < 2 ^ (K - ez)).
  { rewrite HB.
    apply Z.lt_le_trans with (2 ^ Zdigits2 (Zpos my) * 2 ^ (ey - ez));
      [nia|].
    rewrite <- Z.pow_add_r by (simpl Zdigits2; lia).
    apply Z.pow_le_mono_r; lia. }
  assert (HA0 : 0 < A) by (subst A; lia).
  assert (HB0 : 0 < B) by (subst B; lia).
  assert (Hfin : forall (s : bool) (d : positive),
             Zpos d < 2 ^ (K - ez) ->
             exists s' m' e',
               Zdigits2 (Zpos m') + e' <= K + 1 /\
               binary_round prec emax s d ez = S754_finite s' m' e').
  { intros s d Hd. apply digits_below in Hd.
    destruct (binary_round_spec s d ez) as (m' & e' & Hm' & Hc & Heq).
    - unfold mag. assert (1 <= Zdigits2 (Zpos d)) by (simpl; lia).
      subst ez. lia.
    - unfold mag in *. rewrite fexp64 in Hc.
      exists s, m', e'. split; [lia|]. rewrite Heq.
      replace (e' <=? emax - prec) with true; [reflexivity|].
      symmetry. apply Z.leb_le. unfold emax, prec. lia. }
  unfold binary_normalize.
  destruct (A - B) as [|d|d] eqn:E; [left; reflexivity|right|right].
  - apply Hfin. lia.
  - apply Hfin. lia.
Qed.

(** The product of a positive normal number with a finite non-zero number
    of either sign. *)
Lemma SFmul_mag_spec (s : bool) (mx my : positive) (ex ey : Z) :
  Zdigits2 (Zpos mx) = 53 ->
  -1073 < mag mx ex + mag my ey ->
  exists (m' : positive) (e' : Z),
    mag m' e' <= mag mx ex + mag my ey + 1 /\
    e' = fexp prec emax (mag m' e') /\
    SFmul prec emax (S754_finite false mx ex) (S754_finite s my ey)
    = if e' <=? emax - prec then S754_finite s m' e'
      else S754_infinity s.
Proof.
  unfold mag. intros Hx Hm. simpl SFmul.
  pose proof (Z.log2_mul_below (Zpos mx) (Zpos my)) as Hlo.
  pose proof (Z.log2_mul_above (Zpos mx) (Zpos my)) as Hhi.
  pose proof (Z.log2_nonneg (Zpos my)) as Hy.
  rewrite (Zdigits2_log2 (Zpos mx)), (Zdigits2_log2 (Zpos my)) in * by lia.
  destruct (binary_round_aux_spec s (Zpos (mx * my)) (ex + ey) loc_Exact)
    as (m' & e' & Hmag & Hcan & Heq).
  - lia.
  - rewrite Zdigits2_log2, Pos2Z.inj_mul by lia. lia.
  - rewrite Zdigits2_log2, Pos2Z.inj_mul, fexp64 by lia. lia.
  - exists m', e'.
    rewrite (Zdigits2_log2 (Zpos (mx * my))), Pos2Z.inj_mul in Hmag by lia.
    split; [lia|]. split; assumption.
Qed.

(** Halving a positive number: a zero (only the smallest number rounds to
    it) or a positive number of no larger magnitude; never an infinity. *)
Lemma half_of_positive (m : positive) (e : Z) :
  SpecFloat.bounded prec emax m e = true ->
  SFdiv prec emax (S754_finite false m e)
    (S754_finite false 4503599627370496 (-51))
  = S754_zero false \/
  exists m' e',
    mag m' e' <= mag m e /\
    SFdiv prec emax (S754_finite false m e)
      (S754_finite false 4503599627370496 (-51))
    = S754_finite false m' e'.
Proof.
  intros Hb. destruct (bounded_mag m e Hb) as [Hc He].
  rewrite fexp64 in Hc.
  destruct (Z_lt_le_dec (-1072) (mag m e)) as [Hbig|Hsmall].
  - right.
    destruct (SFdiv_pos_spec m 4503599627370496 e (-51))
      as (m' & e' & Hm' & Hc' & Heq).
    + change (mag 4503599627370496 (-51)) with 2. lia.
    + change (mag 4503599627370496 (-51)) with 2 in Hm'.
      rewrite fexp64 in Hc'. exists m', e'. split; [lia|].
      rewrite Heq.
      replace (e' <=? emax - prec) with true; [reflexivity|].
      symmetry. apply Z.leb_le. unfold emax, prec. lia.
  - assert (E : e = -1074) by lia. subst e.
    assert (Hd : Zdigits2 (Zpos m) <= 2) by (unfold mag in Hsmall; lia).
    assert (Hm : Zpos m < 4).
    { pose proof (mantissa_below m) as Hlt.
      apply Z.lt_le_trans with (1 := Hlt).
      change 4 with (2 ^ 2). apply Z.pow_le_mono_r; lia. }
    assert (Hcases : m = 1%positive \/ m = 2%positive \/ m = 3%positive)
      by lia.
    destruct Hcases as [->|[->| ->]].
    + left. vm_compute. reflexivity.
    + right. exists 1%positive, (-1074). split; vm_compute; congruence.
    + right. exists 2%positive, (-1074). split; vm_compute; congruence.
Qed.
End Subtraction.

(** ** The profile at positions and lengths that are not finite *)

Section FloatKinds.
Local Open Scope float_scope.

Lemma is_nan_SF (a : float) :
  is_nan a = match Prim2SF a with S754_nan => true | _ => false end.
Proof.
  unfold is_nan. rewrite eqb_spec.
  destruct (Prim2SF a) as [[|]|[|]| |[|] m e]; unfold SFeqb; simpl;
    rewrite ?Z.compare_refl, ?Pos.compare_cont_refl; reflexivity.
Qed.

Lemma is_infinity_SF (a : float) :
  is_infinity a
  = match Prim2SF a with S754_infinity _ => true | _ => false end.
Proof.
  unfold is_infinity. rewrite eqb_spec, abs_spec.
  change (Prim2SF infinity) with (S754_infinity false).
  destruct (Prim2SF a) as [[|]|[|]| |[|] m e]; reflexivity.
Qed.

Lemma eqb_infinity (a : float) :
  (a =? infinity) = true -> a = infinity.
Proof.
  intros H. apply Prim2SF_inj. rewrite eqb_spec in H.
  change (Prim2SF infinity) with (S754_infinity false) in *.
  destruct (Prim2SF a) as [[|]|[|]| |[|] m e]; try discriminate H;
    reflexivity.
Qed.

Lemma not_ltb_cases (a b : float) :
  (a <? b) = false ->
  (b <=? a) = true \/ is_nan a = true \/ is_nan b = true.
Proof.
  rewrite ltb_spec, leb_spec, !is_nan_SF. unfold SFltb, SFleb.
  rewrite (SFcompare_antisym (Prim2SF a) (Prim2SF b)).
  destruct (Prim2SF a) as [sa|sa| |sa ma ea];
    destruct (Prim2SF b) as [sb|sb| |sb mb eb]; auto;
    destruct (SFcompare _ _) as [[| |]|] eqn:E; simpl; auto;
    try discriminate; discriminate E.
Qed.

(** Halving never produces [+inf] from anything else. *)
Lemma half_not_infinity (L : float) :
  Prim2SF (L / 2) = S754_infinity false -> Prim2SF L = S754_infinity false.
Proof.
  rewrite div_spec.
  change (Prim2SF 2) with (S754_finite false 4503599627370496 (-51)).
  pose proof (Prim2SF_valid L) as Hv.
  destruct (Prim2SF L) as [s|[|]| |[|] m e]; try discriminate; auto.
  - unfold SF64div, SFdiv.
    destruct (SFdiv_core_binary _ _ _ _ _ _) as [[mz ez] lz].
    cbv beta iota. change (xorb true false) with true.
    destruct (binary_round_aux_sign true mz ez lz)
      as [H|[H|[H|(m' & e' & H)]]]; rewrite H; discriminate.
  - unfold SF64div.
    destruct (half_of_positive m e Hv) as [H|(m' & e' & _ & H)];
      rewrite H; discriminate.
Qed.
End FloatKinds.

Section ProfileEdges.
Import F64.
Local Open Scope float_scope.
Variable libm_sin : float -> float.

Lemma current_at_nan (L xi : float) :
  is_nan xi = true \/ is_nan L = true ->
  current_at libm_sin (L / 2) xi = 0.
Proof.
  intros H. unfold current_at.
  replace (abs xi <=? L / 2) with false; [reflexivity|].
  symmetry. rewrite leb_spec, abs_spec, div_spec.
  rewrite !is_nan_SF in H.
  destruct H as [H|H].
  - destruct (Prim2SF xi); try discriminate H. reflexivity.
  - destruct (Prim2SF L); try discriminate H.
    destruct (Prim2SF xi) as [sx|[|]| |[|] mx ex]; reflexivity.
Qed.

Lemma abs_of_infinite (xi : float) :
  is_infinity xi = true -> abs xi = infinity.
Proof.
  intros H. apply Prim2SF_inj. rewrite abs_spec.
  rewrite is_infinity_SF in H.
  destruct (Prim2SF xi) as [sx|[|]| |[|] mx ex]; try discriminate H;
    reflexivity.
Qed.

Lemma current_at_infinite_position (L xi : float) :
  is_infinity xi = true ->
  current_at libm_sin (L / 2) xi = if L =? infinity then nan else 0.
Proof.
  intros H. unfold current_at. rewrite (abs_of_infinite xi H).
  destruct (L =? infinity) eqn:E.
  - apply eqb_infinity in E. subst L. reflexivity.
  - replace (infinity <=? L / 2) with false; [reflexivity|].
    symmetry. rewrite leb_spec.
    change (Prim2SF infinity) with (S754_infinity false).
    pose proof (half_not_infinity L) as Hh.
    destruct (Prim2SF (L / 2)) as [s|[|]| |s m e]; try reflexivity.
    rewrite eqb_spec, (Hh eq_refl) in E. discriminate E.
Qed.

Lemma current_at_infinite_length (xi : float) :
  is_nan xi = false -> current_at libm_sin (infinity / 2) xi = nan.
Proof.
  intros H. unfold current_at, np_sin.
  change (infinity / 2) with infinity.
  assert (Hc : (abs xi <=? infinity) = true /\
               is_finite (2 * np_pi * (infinity - abs xi)) = false).
  { rewrite is_finite_SF, leb_spec, mul_spec, sub_spec, abs_spec.
    rewrite is_nan_SF in H.
    change (Prim2SF infinity) with (S754_infinity false).
    change (Prim2SF (2 * np_pi))
      with (S754_finite false 7074237752028440 (-50)).
    destruct (Prim2SF xi) as [sx|[|]| |[|] mx ex]; try discriminate H;
      split; reflexivity. }
  destruct Hc as [-> ->]. reflexivity.
Qed.

(** X10: inputs that are not finite.  A NaN position, or a NaN length, gives the
    element 0 (the comparison [|x| <= half] is false, so the zero of
    [np.zeros_like] stays).  An infinite position gives 0 unless the length
    is [+inf], when it gives NaN.  With the length [+inf] every position
    that is not NaN gives NaN. *)
Theorem current_distribution_non_finite
  (positions : list float) (length_multiplier : float) :
  exists I,
    current_distribution libm_sin positions length_multiplier = Ok I /\
    forall i xi, nth_error positions i = Some xi ->
      (is_nan xi = true \/ is_nan length_multiplier = true ->
       nth_error I i = Some 0) /\
      (is_infinity xi = true ->
       nth_error I i
       = Some (if length_multiplier =? infinity then nan else 0)) /\
      (is_nan xi = false -> length_multiplier = infinity ->
       nth_error I i = Some nan).
Proof.
  eexists. split; [apply current_distribution_map|].
  intros i xi Hi. rewrite nth_error_map, Hi. simpl.
  split; [|split].
  - intros H. rewrite (current_at_nan _ _ H). reflexivity.
  - intros H. rewrite (current_at_infinite_position _ _ H). reflexivity.
  - intros H ->. rewrite (current_at_infinite_length _ H). reflexivity.
Qed.

(** At an end of the antenna the sine is taken at a zero. *)
Lemma ends_argument (h xi : float) :
  (abs xi =? h) = true -> is_finite h = true ->
  (abs xi <=? h) = true /\
  (2 * np_pi * (h - abs xi) =? 0) = true.
Proof.
  intros He Hf. split; [apply eqb_or_ltb_leb; left; exact He|].
  rewrite is_finite_SF in Hf. revert He.
  rewrite !eqb_spec, mul_spec, sub_spec, abs_spec.
  change (Prim2SF (2 * np_pi))
    with (S754_finite false 7074237752028440 (-50)).
  change (Prim2SF 0) with (S754_zero false).
  destruct (Prim2SF h) as [sh|sh| |sh mh eh]; try discriminate Hf.
  - destruct (Prim2SF xi) as [sx|[|]| |[|] mx ex]; try discriminate;
      destruct sh; try discriminate; reflexivity.
  - destruct (Prim2SF xi) as [sx|[|]| |sx mx ex]; try discriminate;
      try (destruct sh; discriminate).
    unfold SFabs, SFeqb, SFcompare. destruct sh; [discriminate|].
    destruct (Z.compare_spec ex eh) as [E|E|E]; try discriminate.
    subst ex. destruct (Pos.compare_cont Eq mx mh) eqn:Em; try discriminate.
    apply Pos.compare_eq in Em. subst mx. intros _.
    unfold SF64sub, SFsub, cond_Zopp.
    set (A := Zpos (fst (shl_align mh eh (Z.min eh eh)))).
    destruct (A - A)%Z eqn:E; [reflexivity|lia|lia].
Qed.

(** X11: the ends of the antenna ("this forces I=0 at ends").  Over the
    reals the element at a position with [|x| = half] is exactly 0.  Over
    binary64, at a position with [|x| == half] and [half] finite, the
    argument of the sine is a zero, and the element is the platform sine of
    that zero. *)
Theorem current_distribution_ends :
  (forall (positions : list R) (length_multiplier : R),
   exists I,
     Ideal.current_distribution positions length_multiplier = Ok I /\
     forall i xi, nth_error positions i = Some xi ->
       (Rabs xi = length_multiplier / 2)%R ->
       nth_error I i = Some 0%R) /\
  (forall (positions : list float) (length_multiplier : float),
   exists I,
     current_distribution libm_sin positions length_multiplier = Ok I /\
     forall i xi, nth_error positions i = Some xi ->
       (abs xi =? length_multiplier / 2) = true ->
       is_finite (length_multiplier / 2) = true ->
       exists z, (z =? 0) = true /\ nth_error I i = Some (libm_sin z)).
Proof.
  split.
  - intros positions L. eexists.
    split; [apply ideal_current_distribution_map|].
    intros i xi Hi Hx. rewrite nth_error_map, Hi. simpl. f_equal.
    unfold Ideal.current_at. rewrite Hx.
    rewrite leb_le by apply Rle_refl.
    replace (2 * PI * (L / 2 - L / 2))%R with 0%R by lra.
    apply sin_0.
  - intros positions L. eexists.
    split; [apply current_distribution_map|].
    intros i xi Hi Hx Hf. rewrite nth_error_map, Hi. simpl.
    destruct (ends_argument _ _ Hx Hf) as [Hin Hz].
    exists (2 * np_pi * (L / 2 - abs xi)). split; [exact Hz|].
    unfold current_at, np_sin. rewrite Hin.
    replace (is_finite (2 * np_pi * (L / 2 - abs xi))) with true;
      [reflexivity|].
    symmetry. rewrite is_finite_SF. rewrite eqb_spec in Hz.
    change (Prim2SF 0) with (S754_zero false) in Hz.
    destruct (Prim2SF (2 * np_pi * (L / 2 - abs xi))) as [s|s| |s m e];
      try reflexivity; try discriminate Hz; destruct s; discriminate Hz.
Qed.
End ProfileEdges.

(** ** The profile for lengths that are not huge *)

Section ProfileBounded.
Import F64.
Local Open Scope float_scope.

Lemma bounded_exponent (m : positive) (e : Z) :
  SpecFloat.bounded prec emax m e = true ->
  (-1074 <= e /\ -1073 <= mag m e <= e + 53)%Z.
Proof.
  intros Hb. destruct (bounded_mag m e Hb) as [Hc _].
  rewrite fexp64 in Hc. unfold mag in *.
  assert (1 <= Zdigits2 (Zpos m))%Z by (simpl; lia). lia.
Qed.

(** Half of a positive length up to [1e300]. *)
Lemma half_cases (L : float) :
  (0 <? L) = true -> (L <=? 1e300) = true ->
  Prim2SF (L / 2) = S754_zero false \/
  exists m e, Prim2SF (L / 2) = S754_finite false m e /\
              (mag m e <= 997)%Z.
Proof.
  intros Hp HL. rewrite div_spec.
  change (Prim2SF 2) with (S754_finite false 4503599627370496 (-51)).
  rewrite leb_spec in HL.
  change (Prim2SF 1e300) with (S754_finite false 6724873095247260 944) in HL.
  destruct (positive_cases L Hp) as [Hi|(m & e & Hm & Hb)];
    rewrite ?Hi, ?Hm in *; [discriminate HL|].
  apply SFleb_exponents in HL.
  destruct (bounded_exponent m e Hb) as [_ Hmag].
  unfold SF64div.
  destruct (half_of_positive m e Hb) as [H|(m' & e' & Hm' & H)];
    rewrite H; [left; reflexivity|right].
  exists m', e'. split; [reflexivity|lia].
Qed.

(** The difference [half - |x|] at a position inside the antenna. *)
Lemma inside_difference (h xi : float) (m : positive) (e : Z) :
  Prim2SF h = S754_finite false m e -> (mag m e <= 997)%Z ->
  (abs xi <=? h) = true ->
  (exists s, Prim2SF (h - abs xi) = S754_zero s) \/
  exists s m' e',
    Prim2SF (h - abs xi) = S754_finite s m' e' /\
    (-1073 <= mag m' e' <= 998)%Z.
Proof.
  intros Hh Hmag Hin.
  pose proof (Prim2SF_valid h) as Vh. rewrite Hh in Vh. simpl in Vh.
  destruct (bounded_exponent m e Vh) as [He Hme].
  pose proof (Prim2SF_valid (h - abs xi)) as Vd.
  pose proof (Prim2SF_valid xi) as Vx.
  rewrite leb_spec in Hin. rewrite sub_spec, abs_spec, Hh in *.
  destruct (Prim2SF xi) as [sx|sx| |sx mx ex]; simpl SFabs in *;
    try discriminate Hin.
  - right. exists false, m, e. split; [reflexivity|lia].
  - simpl in Vx. destruct (bounded_exponent mx ex Vx) as [Hex Hmx].
    apply SFleb_exponents in Hin.
    destruct (bounded_mag m e Vh) as [Hc _]. rewrite fexp64 in Hc.
    unfold SF64sub in *.
    destruct (SFsub_pos_spec m mx e ex 997)
      as [H|(s & m' & e' & Hm' & H)]; try lia.
    + left. exists false. exact H.
    + right. rewrite H in *. simpl in Vd.
      destruct (bounded_exponent m' e' Vd) as [_ Hlow].
      exists s, m', e'. split; [reflexivity|lia].
Qed.

(** [2 pi] times a finite number of moderate magnitude is finite. *)
Lemma two_pi_times (b : float) (s : bool) (m : positive) (e : Z) :
  Prim2SF b = S754_finite s m e -> (-1073 <= mag m e <= 998)%Z ->
  is_finite (2 * np_pi * b) = true.
Proof.
  intros Hb Hmag. rewrite is_finite_SF, mul_spec, Hb.
  change (Prim2SF (2 * np_pi))
    with (S754_finite false 7074237752028440 (-50)).
  destruct (SFmul_mag_spec s 7074237752028440 m (-50) e)
    as (m' & e' & Hm' & Hc & Heq).
  - reflexivity.
  - change (mag 7074237752028440 (-50)) with 3%Z. lia.
  - change (mag 7074237752028440 (-50)) with 3%Z in Hm'.
    rewrite fexp64 in Hc. unfold SF64mul. rewrite Heq.
    replace (e' <=? emax - prec)%Z with true; [reflexivity|].
    symmetry. apply Z.leb_le. unfold emax, prec. lia.
Qed.

(** For a length up to [1e300] the argument of the sine is finite at every
    position inside the antenna. *)
Lemma sine_argument_finite (L xi : float) :
  (L <=? 1e300) = true -> (abs xi <=? L / 2) = true ->
  is_finite (2 * np_pi * (L / 2 - abs xi)) = true.
Proof.
  intros HL Hin. destruct (L <=? 0) eqn:H0.
  - destruct (inside_nonpositive L xi H0 Hin) as [-> | ->]; reflexivity.
  - destruct (not_le_0_cases L H0) as [Hn|Hp].
    + rewrite leb_spec, Hn in HL. discriminate HL.
    + destruct (half_cases L Hp HL) as [Hz|(m & e & Hh & Hmag)].
      * rewrite is_finite_SF, mul_spec, sub_spec, abs_spec, Hz.
        rewrite leb_spec, abs_spec, Hz in Hin.
        destruct (Prim2SF xi) as [sx|[|]| |[|] mx ex];
          try discriminate Hin; reflexivity.
      * destruct (inside_difference (L / 2) xi m e Hh Hmag Hin)
          as [[s Hd]|(s & m' & e' & Hd & Hm')].
        -- rewrite is_finite_SF, mul_spec, Hd. reflexivity.
        -- exact (two_pi_times _ s m' e' Hd Hm').
Qed.

Lemma current_at_bounded (libm_sin : float -> float) (L xi : float) :
  (forall y, is_finite y = true -> in_unit (libm_sin y) = true) ->
  (1e300 <? L) = false ->
  in_unit (current_at libm_sin (L / 2) xi) = true.
Proof.
  intros Hsin HL.
  destruct (not_ltb_cases _ _ HL) as [Hle|[Hn|Hn]].
  - unfold current_at, np_sin.
    destruct (abs xi <=? L / 2) eqn:Hin; [|reflexivity].
    rewrite (sine_argument_finite _ _ Hle Hin).
    apply Hsin. apply (sine_argument_finite _ _ Hle Hin).
  - discriminate Hn.
  - rewrite (current_at_nan libm_sin L xi (or_intror Hn)). reflexivity.
Qed.

(** X12: the range of the profile for lengths that are not huge.  With a
    sine that stays in [[-1, 1]] on finite arguments, for every length
    multiplier that is not above [1e300] (the slider's range [0.25 .. 2.0],
    negative values, [-inf] and NaN included) and all positions (infinite
    and NaN included), every element of the output lies in [[-1, 1]]; none
    is NaN. *)
Theorem current_distribution_bounded
  (libm_sin : float -> float)
  (positions : list float) (length_multiplier : float) :
  (forall y, is_finite y = true -> in_unit (libm_sin y) = true) ->
  (1e300 <? length_multiplier) = false ->
  exists I,
    current_distribution libm_sin positions length_multiplier = Ok I /\
    Forall (fun y => in_unit y = true) I.
Proof.
  intros Hsin HL. eexists. split; [apply current_distribution_map|].
  apply Forall_forall. intros y Hy. apply in_map_iff in Hy.
  destruct Hy as (xi & <- & _).
  apply current_at_bounded; assumption.
Qed.
End ProfileBounded.

(** ** The peak of the half-wave antenna *)

Section HalfWave.
Import F64.
Local Open Scope float_scope.

Lemma in_unit_le_1 (y : float) : in_unit y = true -> (y <=? 1) = true.
Proof.
  unfold in_unit. intros H. apply andb_true_iff in H. exact (proj2 H).
Qed.

Lemma abs_of_zero (xi : float) : (xi =? 0) = true -> abs xi = 0.
Proof.
  intros H. apply Prim2SF_inj. rewrite abs_spec. rewrite eqb_spec in H.
  change (Prim2SF 0) with (S754_zero false) in *.
  destruct (Prim2SF xi) as [s|[|]| |[|] m e]; try discriminate H;
    reflexivity.
Qed.

(** At the centre of a half-wave antenna the sine is taken at
    [2 * np.pi * 0.25]. *)
Lemma half_wave_centre (libm_sin : float -> float) (xi : float) :
  (xi =? 0) = true ->
  current_at libm_sin (0.5 / 2) xi = libm_sin (2 * np_pi * 0.25).
Proof.
  intros H. unfold current_at. rewrite (abs_of_zero xi H). reflexivity.
Qed.

(** C6: with [length_multiplier = 0.5] the profile at [x = 0] is
    [sin(2 pi 0.25) = 1], and this is the maximum of the profile over all
    positions.  Over the reals: the value at 0 is [sin(2 pi 0.25)], which is
    1, and every element of every profile is at most that.  Over binary64:
    the program evaluates the sine at [2 * np.pi * 0.25] for the position 0,
    and, with a sine that stays in [[-1, 1]] on finite arguments and is 1 at
    [2 * np.pi * 0.25], for every sequence of positions the elements at the
    positions equal to 0 are 1 and no element is larger than 1. *)
Theorem half_wave_peak :
  (Ideal.current_distribution [0] 0.5 = Ok [sin (2 * PI * 0.25)])%R /\
  (sin (2 * PI * 0.25) = 1)%R /\
  (forall positions : list R,
   exists I,
     Ideal.current_distribution positions 0.5%R = Ok I /\
     Forall (fun y => y <= sin (2 * PI * 0.25))%R I) /\
  (forall libm_sin : float -> float,
     current_distribution libm_sin [0] 0.5
     = Ok [np_sin libm_sin (2 * np_pi * 0.25)]) /\
  (forall (libm_sin : float -> float) (positions : list float),
   (forall y, is_finite y = true -> in_unit (libm_sin y) = true) ->
   libm_sin (2 * np_pi * 0.25) = 1 ->
   exists I,
     current_distribution libm_sin positions 0.5 = Ok I /\
     Forall (fun y => (y <=? 1) = true) I /\
     forall i xi, nth_error positions i = Some xi -> (xi =? 0) = true ->
       nth_error I i = Some 1).
Proof.
  assert (S1 : (sin (2 * PI * 0.25) = 1)%R).
  { replace (2 * PI * 0.25)%R with (PI / 2)%R by lra. apply sin_PI2. }
  split; [|split; [exact S1|split; [|split]]].
  - rewrite ideal_current_distribution_map. simpl. do 2 f_equal.
    rewrite current_at_inside by (rewrite Rabs_R0; lra).
    rewrite Rabs_R0. f_equal. lra.
  - intros positions. eexists.
    split; [apply ideal_current_distribution_map|].
    rewrite S1. apply Forall_forall. intros y Hy.
    apply in_map_iff in Hy. destruct Hy as (xi & <- & _).
    apply current_at_bounds.
  - intros libm_sin. vm_compute. reflexivity.
  - intros libm_sin positions Hrange Hpeak. eexists.
    split; [apply current_distribution_map|]. split.
    + apply Forall_forall. intros y Hy. apply in_map_iff in Hy.
      destruct Hy as (xi & <- & _). apply in_unit_le_1.
      apply current_at_bounded; [exact Hrange|reflexivity].
    + intros i xi Hi Hxi. rewrite nth_error_map, Hi. cbn [option_map].
      rewrite (half_wave_centre libm_sin xi Hxi), Hpeak. reflexivity.
Qed.
End HalfWave.

(** ** The plotted curve *)

Section CurveRange.
Import F64 Gui.
Local Open Scope float_scope.
Variable libm_sin : float -> float.
Variable py_float : string -> option float.
Variable py_str : float -> string.
Variable py_strip : string -> string.
Variable x : list float.
Variable coerce : float -> float -> float -> float -> float.

Local Abbreviation update := (Gui.update libm_sin py_float py_strip x).
Local Abbreviation handle :=
  (Gui.handle libm_sin py_float py_str py_strip x coerce).
Local Abbreviation run := (Gui.run libm_sin py_float py_str py_strip x coerce).
Local Abbreviation start :=
  (Gui.start libm_sin py_float py_str py_strip x coerce).

(** The values the length slider can take: the one it has, its initial
    value, and what the slider makes of a dragged position. *)
Lemma handle_mult_values (P : float -> Prop) (e : event) (u : State) :
  (forall pos,
     P (coerce (valmin (s_mult u)) (valmax (s_mult u))
          (valstep (s_mult u)) pos)) ->
  P (valinit (s_mult u)) -> P (val (s_mult u)) ->
  exists u', handle e u = Ok u' /\ P (val (s_mult u')).
Proof.
  intros Hdrag Hinit Hval.
  assert (Hup : forall v : State,
             P (val (s_mult v)) ->
             exists u', update v = Ok u' /\ P (val (s_mult u'))).
  { intros v Hv.
    destruct (update_frame libm_sin py_float py_strip x v)
      as (u' & Hu & _ & _ & Hs & _).
    exists u'. rewrite Hs. auto. }
  destruct e as [t|pos|pos|]; simpl.
  - unfold submit_freq. apply Hup. exact Hval.
  - unfold drag_vf, s_vf_set_val.
    destruct (_ =? val (s_vf u)); [exists u; auto|].
    apply Hup. exact Hval.
  - unfold drag_mult, s_mult_set_val.
    destruct (_ =? val (s_mult u)); [exists u; auto|].
    apply Hup. simpl. apply Hdrag.
  - unfold Gui.reset.
    destruct (tb_set_val_returns libm_sin py_float py_strip x
                (py_str freq0) u) as (u1 & -> & _ & _ & E1). simpl.
    assert (H2 : exists u2,
               Gui.s_vf_reset libm_sin py_float py_strip x u1 = Ok u2 /\
               s_mult u2 = s_mult u).
    { unfold Gui.s_vf_reset, s_vf_set_val.
      destruct (val (s_vf u1) =? valinit (s_vf u1)); [exists u1; auto|].
      match goal with |- context [Gui.update _ _ _ _ ?v] =>
        destruct (update_frame libm_sin py_float py_strip x v)
          as (u2 & Hu & _ & _ & Hs & _) end.
      exists u2. rewrite Hs. auto. }
    destruct H2 as (u2 & -> & E2). simpl.
    assert (H3 : exists u3,
               Gui.s_mult_reset libm_sin py_float py_strip x u2 = Ok u3 /\
               P (val (s_mult u3))).
    { unfold Gui.s_mult_reset, s_mult_set_val.
      destruct (val (s_mult u2) =? valinit (s_mult u2));
        [exists u2; rewrite E2; auto|].
      apply Hup. simpl. rewrite E2. exact Hinit. }
    destruct H3 as (u3 & -> & H3). simpl. apply Hup. exact H3.
Qed.

Lemma run_mult_values (P : float -> Prop) (es : list event) :
  forall u : State,
  (forall pos,
     P (coerce (valmin (s_mult u)) (valmax (s_mult u))
          (valstep (s_mult u)) pos)) ->
  P (valinit (s_mult u)) -> P (val (s_mult u)) ->
  exists u', run es u = Ok u' /\ P (val (s_mult u')).
Proof.
  induction es as [|e es IH]; intros u Hdrag Hinit Hval; simpl.
  - exists u. auto.
  - destruct (handle_mult_values P e u Hdrag Hinit Hval) as (u1 & E1 & H1).
    destruct (handle_step libm_sin py_float py_str py_strip x coerce e u)
      as (u1' & E1' & _ & M1 & _).
    rewrite E1 in E1'. injection E1' as <-. rewrite E1. simpl.
    apply IH; [| |exact H1]; rewrite <- M1; simpl; assumption.
Qed.

(** X13: the curve on display.  With a sine that stays in [[-1, 1]] on finite
    arguments and a length slider that never stores a value above [1e300]
    (matplotlib confines it to [[0.25, 2.0]]), after the start-up and any
    sequence of callbacks every point of the plotted curve lies in
    [[-1, 1]]. *)
Theorem curve_stays_in_range (es : list event) :
  (forall y, is_finite y = true -> in_unit (libm_sin y) = true) ->
  (forall v, (1e300 <? coerce 0.25 2.0 0.01 v) = false) ->
  exists u,
    (u0 <- start ;; run es u0) = Ok u /\
    Forall (fun y => in_unit y = true) (ydata u).
Proof.
  intros Hsin Hclip.
  unfold Gui.start. rewrite current_distribution_map. simpl bind.
  match goal with |- context [Gui.update _ _ _ _ ?v] => set (init := v) end.
  destruct (update_frame libm_sin py_float py_strip x init)
    as (u0 & E0 & _ & _ & M0 & F0).
  rewrite E0. simpl bind.
  destruct (run_step libm_sin py_float py_str py_strip x coerce es u0)
    as (u & E & _ & _ & F).
  destruct (run_mult_values (fun v => (1e300 <? v) = false) es u0)
    as (u' & E' & Hv).
  - intros pos. rewrite M0. apply Hclip.
  - rewrite M0. apply Hclip.
  - rewrite M0. apply Hclip.
  - rewrite E in E'. injection E' as <-.
    exists u. split; [exact E|].
    destruct (up_to_date_fields libm_sin py_float py_strip x u (F F0))
      as [-> _].
    apply Forall_forall. intros y Hy. apply in_map_iff in Hy.
    destruct Hy as (xi & <- & _).
    apply current_at_bounded; assumption.
Qed.
End CurveRange.

(** ** Wavelength and frequency *)

Section RoundTrip.

(** X14: the conversion is its own inverse over the reals: the function that
    turns a frequency in MHz into a wavelength in metres turns that
    wavelength back into the frequency.  Over binary64 the round trip is
    not exact: from the default 100.0 it comes back as
    100.00000000000001. *)
Theorem wavelength_m_round_trip :
  (forall f : R, f <> 0%R ->
   exists lam,
     Ideal.wavelength_m f = Ok lam /\ Ideal.wavelength_m lam = Ok f) /\
  (exists lam,
     F64.wavelength_m F64.freq0 = Ok lam /\
     F64.wavelength_m lam = Ok 100.00000000000001%float).
Proof.
  split.
  - intros f Hf. exists (299792458 / (f * 1e6))%R.
    unfold Ideal.wavelength_m, Ideal.truediv, Ideal.C.
    assert (H6 : (f * 1e6 <> 0)%R) by (intros E; apply Hf; lra).
    destruct (Req_dec_T (f * 1e6) 0) as [E|_]; [contradiction|].
    split; [reflexivity|].
    assert (Hl : (299792458 / (f * 1e6) * 1e6 <> 0)%R).
    { intros E. apply Rmult_integral in E. destruct E as [E|E]; [|lra].
      unfold Rdiv in E. apply Rmult_integral in E.
      destruct E as [E|E]; [lra|].
      exact (Rinv_neq_0_compat _ H6 E). }
    destruct (Req_dec_T (299792458 / (f * 1e6) * 1e6) 0) as [E|_];
      [contradiction|].
    f_equal. field. exact Hf.
  - eexists. split; vm_compute; reflexivity.
Qed.
End RoundTrip.

(** ** Examples for the further properties *)

Section FurtherExamples.
Import F64 Gui.
Local Open Scope float_scope.
Local Open Scope string_scope.

(** The clipping slider of the small environment keeps the length at or
    below 2, and the stand-in sine stays in [[-1, 1]]. *)
Lemma clip_not_huge (v : float) :
  (1e300 <? Probe.coerce 0.25 2.0 0.01 v)%float = false.
Proof.
  unfold Probe.coerce. destruct (v <? 0.25)%float; [reflexivity|].
  destruct (2.0 <? v)%float eqn:E; [reflexivity|].
  rewrite ltb_spec in *.
  change (Prim2SF 2.0) with (S754_finite false 4503599627370496 (-51)) in E.
  change (Prim2SF 1e300) with (S754_finite false 6724873095247260 944).
  destruct (Prim2SF v) as [s|[|]| |[|] m e]; try reflexivity;
    try discriminate E.
  unfold SFltb, SFcompare in *.
  destruct (Z.compare_spec (-51) e); destruct (Z.compare_spec 944 e);
    try lia; try discriminate E; reflexivity.
Qed.

Lemma stand_in_sine_range (y : float) :
  is_finite y = true -> in_unit (Probe.libm_sin y) = true.
Proof.
  intros _. unfold Probe.libm_sin.
  destruct (in_unit y) eqn:E; [exact E|reflexivity].
Qed.

(** After a session in the small environment, [reset] gives back the state
    of the start-up. *)
Lemma reset_is_restart_witness :
  exists u,
    Demo.session [Submit "27"; Move_vf 0.9; Move_mult 1.25] = Ok u /\
    Demo.reset u
    = Gui.start Demo.libm_sin Demo.py_float Demo.py_str Demo.py_strip
        Demo.x Demo.coerce.
Proof.
  apply (reset_is_restart Demo.libm_sin Demo.py_float Demo.py_str
           Demo.py_strip Demo.x Demo.coerce
           [Submit "27"; Move_vf 0.9; Move_mult 1.25]); reflexivity.
Defined.

(** From the state a submission of 27 MHz leaves, a move of the
    velocity-factor slider keeps the curve and the wavelength shown. *)
Lemma inputs_are_independent_witness :
  exists u,
    Demo.session [Submit "27"] = Ok u /\
    forall pos, exists u',
      Demo.handle (Move_vf pos) u = Ok u' /\ tb_freq u' = tb_freq u /\
      ydata u' = ydata u /\ s_mult u' = s_mult u /\
      option_map shown_freq (status u') = option_map shown_freq (status u) /\
      option_map shown_lam (status u') = option_map shown_lam (status u).
Proof.
  assert (H : exists u,
             Demo.session [Submit "27"] = Ok u /\
             Gui.update Demo.libm_sin Demo.py_float Demo.py_strip Demo.x u
             = Ok u).
  { eexists. split; vm_compute; reflexivity. }
  destruct H as (u & E & F). exists u. split; [exact E|].
  exact (proj1 (proj2 (inputs_are_independent Demo.libm_sin Demo.py_float
                         Demo.py_str Demo.py_strip Demo.x Demo.coerce
                         u F))).
Defined.

(** The texts [nan] and [inf] submitted in the small environment. *)
Lemma non_finite_frequency_witness :
  (exists u' shown,
     Probe.handle (Submit "nan") Demo.showing_27 = Ok u' /\
     status u' = Some shown /\
     shown_freq shown = nan /\ shown_lam shown = nan) /\
  (exists u' shown,
     Probe.handle (Submit "inf") Demo.showing_27 = Ok u' /\
     status u' = Some shown /\
     shown_freq shown = infinity /\ shown_lam shown = 0%float).
Proof.
  split.
  - destruct (non_finite_frequency Demo.libm_sin Probe.py_float Demo.py_str
                Demo.py_strip Demo.x Demo.coerce Demo.showing_27
                "nan" nan eq_refl)
      as (u' & shown & H1 & H2 & Hn & _).
    exists u', shown. split; [exact H1|]. split; [exact H2|].
    destruct (Hn eq_refl) as (A & B & _). split; assumption.
  - destruct (non_finite_frequency Demo.libm_sin Probe.py_float Demo.py_str
                Demo.py_strip Demo.x Demo.coerce Demo.showing_27
                "inf" infinity eq_refl)
      as (u' & shown & H1 & H2 & _ & Hi & _).
    exists u', shown. split; [exact H1|]. split; [exact H2|].
    exact (Hi eq_refl).
Defined.

(** A NaN position and an infinite one on a half-wave antenna, and a
    finite position on an infinite one. *)
Lemma current_distribution_non_finite_witness :
  (exists I,
     current_distribution Demo.libm_sin [nan; infinity; 0.1]%float 0.5%float
     = Ok I /\
     nth_error I 0 = Some 0%float /\ nth_error I 1 = Some 0%float) /\
  (exists I,
     current_distribution Demo.libm_sin [0.1]%float infinity = Ok I /\
     nth_error I 0 = Some nan).
Proof.
  split.
  - destruct (current_distribution_non_finite Demo.libm_sin
                [nan; infinity; 0.1]%float 0.5%float) as (I & HI & H).
    exists I. split; [exact HI|]. split.
    + apply (proj1 (H 0%nat nan eq_refl)). left. reflexivity.
    + exact (proj1 (proj2 (H 1%nat infinity eq_refl)) eq_refl).
  - destruct (current_distribution_non_finite Demo.libm_sin
                [0.1]%float infinity) as (I & HI & H).
    exists I. split; [exact HI|].
    exact (proj2 (proj2 (H 0%nat 0.1%float eq_refl)) eq_refl eq_refl).
Defined.

(** The two ends of a half-wave antenna. *)
Lemma current_distribution_ends_witness :
  (exists I,
     Ideal.current_distribution [(1 / 4)%R; (- (1 / 4))%R] (1 / 2)%R = Ok I /\
     nth_error I 0 = Some 0%R /\ nth_error I 1 = Some 0%R) /\
  (exists I z,
     current_distribution Demo.libm_sin [0.25; -0.25]%float 0.5%float
     = Ok I /\
     (z =? 0)%float = true /\ nth_error I 1 = Some (Demo.libm_sin z)).
Proof.
  split.
  - destruct (proj1 (current_distribution_ends Demo.libm_sin)
                [(1 / 4)%R; (- (1 / 4))%R] (1 / 2)%R) as (I & HI & H).
    exists I. split; [exact HI|]. split.
    + apply (H 0%nat (1 / 4)%R eq_refl).
      rewrite Rabs_right by lra. lra.
    + apply (H 1%nat (- (1 / 4))%R eq_refl).
      rewrite Rabs_Ropp, Rabs_right by lra. lra.
  - destruct (proj2 (current_distribution_ends Demo.libm_sin)
                [0.25; -0.25]%float 0.5%float) as (I & HI & H).
    destruct (H 1%nat (-0.25)%float eq_refl eq_refl eq_refl)
      as (z & Hz & Hn).
    exists I, z. split; [exact HI|]. split; assumption.
Defined.

(** A length of two wavelengths, with positions of every kind. *)
Lemma current_distribution_bounded_witness :
  exists I,
    current_distribution Probe.libm_sin
      [0; 0.1; -0.75; 2; nan; infinity]%float 2%float = Ok I /\
    Forall (fun y => in_unit y = true) I.
Proof.
  apply (current_distribution_bounded Probe.libm_sin
           [0; 0.1; -0.75; 2; nan; infinity]%float 2%float).
  - exact stand_in_sine_range.
  - reflexivity.
Defined.

(** A session with a clipping slider: a drag far beyond the range, an
    infinite frequency, a reset and a drag. *)
Lemma curve_stays_in_range_witness :
  exists u,
    Probe.session [Move_mult 1e308; Submit "inf"; Click_reset;
                   Move_mult 1.25] = Ok u /\
    Forall (fun y => in_unit y = true) (ydata u).
Proof.
  apply (curve_stays_in_range Probe.libm_sin Probe.py_float Demo.py_str
           Demo.py_strip Demo.x Probe.coerce
           [Move_mult 1e308; Submit "inf"; Click_reset; Move_mult 1.25]).
  - exact stand_in_sine_range.
  - exact clip_not_huge.
Defined.
(** 100 MHz over the reals: 2.99792458 m, and back. *)
Lemma wavelength_m_round_trip_witness :
  exists lam,
    Ideal.wavelength_m 100%R = Ok lam /\ Ideal.wavelength_m lam = Ok 100%R.
Proof.
  apply (proj1 wavelength_m_round_trip 100%R). lra.
Defined.
End FurtherExamples.

(** ** The half-wave peak and the reset with the slider of matplotlib *)

Section SnappedDefaults.
Import F64 Gui.
Local Open Scope float_scope.
Local Open Scope string_scope.

Lemma peak_sin_range (y : float) :
  is_finite y = true -> in_unit (Probe.peak_sin y) = true.
Proof.
  intros _. unfold Probe.peak_sin.
  destruct (in_unit y) eqn:E; [exact E|reflexivity].
Qed.

(** C6 over binary64 on five positions, two of them zeros: the elements at
    the zeros are 1 and no element is larger. *)
Lemma half_wave_peak_witness :
  exists I,
    current_distribution Probe.peak_sin [0; 0.1; -0.25; 2; -0]%float
      0.5%float = Ok I /\
    Forall (fun y => (y <=? 1)%float = true) I /\
    nth_error I 0 = Some 1%float /\ nth_error I 4 = Some 1%float.
Proof.
  destruct (proj2 (proj2 (proj2 (proj2 half_wave_peak)))
              Probe.peak_sin [0; 0.1; -0.25; 2; -0]%float
              peak_sin_range eq_refl) as (I & HI & HF & Hc).
  exists I. split; [exact HI|]. split; [exact HF|]. split.
  - exact (Hc 0%nat 0%float eq_refl eq_refl).
  - exact (Hc 4%nat (-0)%float eq_refl eq_refl).
Defined.

(** C8 as stated fails with the slider of matplotlib.  The velocity-factor
    slider stores [0.8 + 30 * 0.005 = 0.9500000000000001] for its initial
    value 0.95; after a session and [reset] the total length is
    1.4240141755 and the arm 0.71200708775, while [lengths 100.0 0.95 0.5]
    gives 1.4240141754999998 and 0.71200708774999988. *)
Lemma reset_shows_snapped_defaults :
  Mpl.coerce 0.80 1.00 0.005 0.95 = 0.9500000000000001%float /\
  lengths 100.0 0.95 0.5
  = Ok (2.9979245799999998, 1.4240141754999998,
        0.71200708774999988)%float /\
  exists u u' shown,
    Mpl.session [Submit "27"; Move_vf 0.9; Move_mult 1.25] = Ok u /\
    Demo.reset u = Ok u' /\ status u' = Some shown /\
    shown_vf shown = 0.9500000000000001%float /\
    shown_total shown = 1.4240141755%float /\
    shown_arm shown = 0.71200708775%float /\
    lengths 100.0 0.95 0.5
    <> Ok (shown_lam shown, shown_total shown, shown_arm shown).
Proof.
  split; [vm_compute; reflexivity|]. split; [vm_compute; reflexivity|].
  eexists _, _, _. split; [vm_compute; reflexivity|].
  split; [vm_compute; reflexivity|]. split; [reflexivity|].
  cbn [shown_vf shown_total shown_arm shown_lam].
  split; [reflexivity|]. split; [reflexivity|]. split; [reflexivity|].
  intros H.
  apply (f_equal (fun r : result (float * float * float) =>
                    match r with
                    | Ok (_, t, _) => (t =? 1.4240141755)%float
                    | Raise _ => false
                    end)) in H.
  vm_compute in H. discriminate H.
Qed.

(** C8 with the slider of matplotlib: after the session, [reset] leaves the
    outputs computed from 100.0 and the values the sliders stored for 0.95
    and 0.5. *)
Lemma reset_restores_stored_defaults_witness :
  exists u u' shown,
    Mpl.session [Submit "27"; Move_vf 0.9; Move_mult 1.25] = Ok u /\
    Demo.reset u = Ok u' /\ status u' = Some shown /\
    lengths 100.0 0.9500000000000001 0.5
    = Ok (shown_lam shown, shown_total shown, shown_arm shown) /\
    current_distribution Demo.libm_sin Demo.x 0.5 = Ok (ydata u') /\
    shown_freq shown = 100.0%float /\
    shown_vf shown = 0.9500000000000001%float /\
    shown_mult shown = 0.5%float.
Proof.
  destruct (reset_restores_stored_defaults Demo.libm_sin Demo.py_float
              Demo.py_str Demo.py_strip Demo.x Mpl.coerce
              [Submit "27"; Move_vf 0.9; Move_mult 1.25]
              eq_refl eq_refl eq_refl)
    as (u & u' & shown & H1 & H2 & H3 & H4 & H5 & H6 & H7 & H8 & _).
  exists u, u', shown.
  split; [exact H1|]. split; [exact H2|]. split; [exact H3|].
  split; [exact H4|]. split; [exact H5|]. split; [exact H6|].
  split; [exact H7|exact H8].
Defined.
End SnappedDefaults.
